(** * debayer-ssbo-demo: the host program of the compute-shader demosaicer

    A shallow embedding of [main.c].  The program is a straight line of
    calls into libc, GBM, EGL and GLES, so the model is a trace semantics:
    every external call appends one [event] (its arguments and, where it has
    one, its result) to the run's trace, and the results themselves are read
    from an environment that fixes what the outside world answers at each
    call site.  C variables that a path may leave unassigned are [var]s. *)

From Stdlib Require Import ZArith List String Ascii Bool Lia.
Import ListNotations.
Open Scope string_scope.
Open Scope list_scope.
Open Scope Z_scope.

(** ** Machine integers *)

(** Two's-complement reduction of [z] to a signed integer of [w] bits. *)
Definition wrap_signed (w : Z) (z : Z) : Z :=
  (z + 2 ^ (w - 1)) mod 2 ^ w - 2 ^ (w - 1).

(** [long] is 64 bits wide on the LP64 targets the demo builds for;
    [int], [EGLint], [GLint] and [GLsizei] are 32 bits wide. *)
Definition to_long (z : Z) : Z := wrap_signed 64 z.
Definition to_int (z : Z) : Z := wrap_signed 32 z.
Definition INT_MAX : Z := 2 ^ 31 - 1.
Definition LONG_MAX : Z := 2 ^ 63 - 1.

(** The value of a C variable: [None] until it is first assigned. *)
Definition var : Type := option Z.

(** ** Symbolic constants of the external APIs *)

Inductive whence : Type := SEEK_SET | SEEK_END.

Inductive glenum : Type :=
| GL_SHADER_STORAGE_BUFFER | GL_COPY_WRITE_BUFFER
| GL_STREAM_DRAW | GL_STREAM_READ
| GL_COMPUTE_SHADER | GL_COMPILE_STATUS | GL_INFO_LOG_LENGTH
| GL_MAJOR_VERSION | GL_MINOR_VERSION
| GL_ALL_BARRIER_BITS | GL_SYNC_GPU_COMMANDS_COMPLETE
| GL_SYNC_FLUSH_COMMANDS_BIT | GL_MAP_READ_BIT.

Inductive eglenum : Type :=
| EGL_PLATFORM_GBM_MESA | EGL_EXTENSIONS | EGL_OPENGL_ES_API
| EGL_RENDERABLE_TYPE | EGL_OPENGL_ES3_BIT_KHR
| EGL_CONTEXT_MAJOR_VERSION | EGL_CONTEXT_MINOR_VERSION.

Inductive open_flags : Type := O_RDWR.

Definition GL_NO_ERROR : Z := 0.
Definition GL_TRUE : Z := 1.
Definition NULL : Z := 0.
Definition EGL_NO_CONTEXT : Z := 0.
Definition EGL_NO_SURFACE : Z := 0.
Definition EXIT_FAILURE : Z := 1.

(** An attribute list as passed to EGL, without its [EGL_NONE] terminator. *)
Inductive egl_attr : Type :=
| AttrEnum (k v : eglenum)
| AttrInt (k : eglenum) (v : Z).

(** An argument of a [printf] call. *)
Inductive parg : Type :=
| PInt (z : Z)
| PStr (s : string)
| PPtr (p : Z).           (* a C string held in allocated memory *)

(** ** Events: one constructor per external function the program calls *)

Inductive event : Type :=
(* stdio and the allocator *)
| E_fopen (fname mode : string) (res : Z)
| E_fseek (fp off : Z) (w : whence)
| E_ftell (fp res : Z)
| E_malloc (size res : Z)
| E_fread (ptr sz n fp res : Z)
| E_fwrite (ptr : Z) (sz n fp res : Z)
| E_free (ptr : var)
| E_fclose (fp : Z) (res : Z)
| E_printf (fmt : string) (args : list parg)
| E_perror (s : string)
(* the render node and GBM *)
| E_open (path : string) (fl : open_flags) (res : Z)
| E_close (fd : var)
| E_gbm_create_device (fd : var) (res : Z)
| E_gbm_device_destroy (gbm : var)
(* EGL *)
| E_eglGetPlatformDisplay (p : eglenum) (gbm : var) (res : Z)
| E_eglInitialize (dpy : var) (res : bool) (major minor : Z)
| E_eglQueryString (dpy : var) (name : eglenum) (res : string)
| E_eglChooseConfig (dpy : var) (attrs : list egl_attr) (config_size : Z)
                    (res : bool) (cfg : var) (count : Z)
| E_eglGetError (res : Z)
| E_eglBindAPI (api : eglenum) (res : bool)
| E_eglCreateContext (dpy cfg : var) (share : Z) (attrs : list egl_attr) (res : Z)
| E_eglMakeCurrent (dpy : var) (draw read : Z) (ctx : var) (res : bool)
| E_eglDestroyContext (dpy ctx : var)
| E_eglTerminate (dpy : var)
(* GLES *)
| E_glGetError (res : Z)
| E_glGetIntegerv (pname : glenum) (res : Z)
| E_glCreateShader (ty : glenum) (res : Z)
| E_glShaderSource (shader : var) (count : Z) (src : var) (len : Z)
| E_glCompileShader (shader : var)
| E_glGetShaderiv (shader : var) (pname : glenum) (res : Z)
| E_glGetShaderInfoLog (shader : var) (bufsize : Z) (log : Z)
| E_glCreateProgram (res : Z)
| E_glAttachShader (prog shader : var)
| E_glLinkProgram (prog : var)
| E_glDeleteShader (shader : var)
| E_glDeleteProgram (prog : var)
| E_glUseProgram (prog : var)
| E_glGenBuffers (n : Z) (res : Z * Z)
| E_glBindBuffer (target : glenum) (buf : var)
| E_glBufferData (target : glenum) (size : Z) (data : var) (usage : glenum)
| E_glBindBufferBase (target : glenum) (index : Z) (buf : var)
| E_glDispatchCompute (x y z : Z)
| E_glMemoryBarrier (bits : glenum)
| E_glFenceSync (cond : glenum) (flags : Z) (res : Z)
| E_glClientWaitSync (sync : var) (flags : glenum) (timeout : Z)
| E_glMapBufferRange (target : glenum) (off len : Z) (access : glenum) (res : Z)
| E_glUnmapBuffer (target : glenum)
| E_glDeleteBuffers (n : Z) (bufs : var * var).

Definition trace : Type := list event.

(** ** The trace monad *)

Definition Run (A : Type) : Type := (trace * A)%type.

Definition ret {A : Type} (a : A) : Run A := ([], a).

Definition bind {A B : Type} (m : Run A) (k : A -> Run B) : Run B :=
  let (t1, a) := m in
  let (t2, b) := k a in
  (t1 ++ t2, b).

Definition call (e : event) : Run unit := ([e], tt).

Definition events {A : Type} (m : Run A) : trace := fst m.
Definition result {A : Type} (m : Run A) : A := snd m.

Declare Scope run_scope.
Delimit Scope run_scope with run.
Notation "x <- m ;; k" := (bind m (fun x => k))
  (at level 61, m at next level, right associativity) : run_scope.
Notation "m ;; k" := (bind m (fun _ => k))
  (at level 61, right associativity) : run_scope.
Open Scope run_scope.

(** ** The outside world *)

(** What stdio and the allocator answer while one file is processed. *)
Record file_io : Type := {
  fopen_res : Z;    (* the FILE pointer, NULL when the file cannot be opened *)
  ftell_res : Z;    (* the offset reported after seeking to the end *)
  malloc_res : Z;   (* the buffer, NULL when memory is exhausted *)
  fread_res : Z;    (* items read *)
  fwrite_res : Z;   (* items written *)
  fclose_res : Z    (* 0, or EOF when the stream could not be flushed *)
}.

(** The file system, by file name and open mode. *)
Definition file_system : Type := string -> string -> file_io.

(** ** File helpers *)

Section WithFiles.
Variable fs : file_system.

(** [read_input_file]: the pair is the returned [long] and what the call
    leaves in [*data]. *)
Definition read_input_file (fname type : string) : Run (Z * var) :=
  let io := fs fname type in
  let fp := fopen_res io in
  call (E_fopen fname type fp) ;;
  if fp =? NULL then ret (0, None)
  else
    call (E_fseek fp 0 SEEK_END) ;;
    let size := ftell_res io in
    call (E_ftell fp size) ;;
    call (E_fseek fp 0 SEEK_SET) ;;
    let err_seek :=
      (call (E_fclose fp (fclose_res io)) ;; @ret (Z * var) (-1, None)) in
    if size <=? 0 then err_seek
    else
      let p_data := malloc_res io in
      call (E_malloc size p_data) ;;
      if p_data =? NULL then err_seek
      else
        let n := fread_res io in
        call (E_fread p_data 1 size fp n) ;;
        if negb (n =? size) then
          (* err_fread: *)
          call (E_free (Some p_data)) ;;
          err_seek
        else
          call (E_fclose fp (fclose_res io)) ;;
          ret (size, Some p_data).

Definition read_input_bin_file (fname : string) : Run (Z * var) :=
  read_input_file fname "rb".

Definition read_input_text_file (fname : string) : Run (Z * var) :=
  read_input_file fname "r".

Definition write_output_file (fname : string) (p_data : Z) (data_size : Z)
  : Run Z :=
  let io := fs fname "wb" in
  let fp := fopen_res io in
  call (E_fopen fname "wb" fp) ;;
  if fp =? NULL then ret 0
  else
    let n := fwrite_res io in
    call (E_fwrite p_data 1 data_size fp n) ;;
    if negb (n =? data_size) then
      call (E_fclose fp (fclose_res io)) ;;
      ret (-1)
    else
      call (E_fclose fp (fclose_res io)) ;;
      ret data_size.

End WithFiles.

(** ** The converter context *)

Record converter : Type := {
  (* EGL related stuff *)
  fd : var;                 (* render node fd *)
  gbm : var;
  egl_dpy : var;
  core_ctx : var;
  (* buffers related stuff *)
  bos : var * var;          (* bos[bo_in], bos[bo_out] *)
  p_in : var;
  p_out : var;
  (* shader *)
  shader_program : var;
  compute_shader : var;
  shader_fname : string
}.

Definition set_fd (c : converter) (v : Z) : converter :=
  {| fd := Some v; gbm := gbm c; egl_dpy := egl_dpy c; core_ctx := core_ctx c;
     bos := bos c; p_in := p_in c; p_out := p_out c;
     shader_program := shader_program c; compute_shader := compute_shader c;
     shader_fname := shader_fname c |}.

Definition set_gbm (c : converter) (v : Z) : converter :=
  {| fd := fd c; gbm := Some v; egl_dpy := egl_dpy c; core_ctx := core_ctx c;
     bos := bos c; p_in := p_in c; p_out := p_out c;
     shader_program := shader_program c; compute_shader := compute_shader c;
     shader_fname := shader_fname c |}.

Definition set_egl_dpy (c : converter) (v : Z) : converter :=
  {| fd := fd c; gbm := gbm c; egl_dpy := Some v; core_ctx := core_ctx c;
     bos := bos c; p_in := p_in c; p_out := p_out c;
     shader_program := shader_program c; compute_shader := compute_shader c;
     shader_fname := shader_fname c |}.

Definition set_core_ctx (c : converter) (v : Z) : converter :=
  {| fd := fd c; gbm := gbm c; egl_dpy := egl_dpy c; core_ctx := Some v;
     bos := bos c; p_in := p_in c; p_out := p_out c;
     shader_program := shader_program c; compute_shader := compute_shader c;
     shader_fname := shader_fname c |}.

Definition set_bos (c : converter) (v : Z * Z) : converter :=
  {| fd := fd c; gbm := gbm c; egl_dpy := egl_dpy c; core_ctx := core_ctx c;
     bos := (Some (fst v), Some (snd v)); p_in := p_in c; p_out := p_out c;
     shader_program := shader_program c; compute_shader := compute_shader c;
     shader_fname := shader_fname c |}.

Definition set_shader_program (c : converter) (v : Z) : converter :=
  {| fd := fd c; gbm := gbm c; egl_dpy := egl_dpy c; core_ctx := core_ctx c;
     bos := bos c; p_in := p_in c; p_out := p_out c;
     shader_program := Some v; compute_shader := compute_shader c;
     shader_fname := shader_fname c |}.

Definition set_compute_shader (c : converter) (v : Z) : converter :=
  {| fd := fd c; gbm := gbm c; egl_dpy := egl_dpy c; core_ctx := core_ctx c;
     bos := bos c; p_in := p_in c; p_out := p_out c;
     shader_program := shader_program c; compute_shader := Some v;
     shader_fname := shader_fname c |}.

Definition set_shader_fname (c : converter) (s : string) : converter :=
  {| fd := fd c; gbm := gbm c; egl_dpy := egl_dpy c; core_ctx := core_ctx c;
     bos := bos c; p_in := p_in c; p_out := p_out c;
     shader_program := shader_program c; compute_shader := compute_shader c;
     shader_fname := s |}.

(** [struct converter cvt;] once [main] has stored the shader's file name
    in it, its first statement: no other field is assigned yet. *)
Definition cvt_declared (fname : string) : converter :=
  {| fd := None; gbm := None; egl_dpy := None; core_ctx := None;
     bos := (None, None); p_in := None; p_out := None;
     shader_program := None; compute_shader := None; shader_fname := fname |}.

Definition bo_in (b : var * var) : var := fst b.
Definition bo_out (b : var * var) : var := snd b.
Definition bo_num : Z := 2.

(** ** EGL set-up and tear-down *)

(** What the kernel, GBM and EGL answer during [init_egl].  The values an
    out-parameter holds after a call ([count], [cfg], [major], [minor]) are
    part of the answer whether or not the call wrote them. *)
Record egl_world : Type := {
  open_res : Z;
  gbm_create_device_res : Z;
  eglGetPlatformDisplay_res : Z;
  eglInitialize_res : bool;
  egl_major : Z;
  egl_minor : Z;
  eglQueryString_res : string;
  count_query_res : bool;
  count_query_count : Z;
  eglChooseConfig_res : bool;
  eglChooseConfig_cfg : Z;
  eglChooseConfig_count : Z;
  eglGetError_res : Z;
  eglBindAPI_res : bool;
  eglCreateContext_res : Z;
  eglMakeCurrent_res : bool;
  gl_major : Z;
  gl_minor : Z
}.

(** [strstr (hay, needle) != NULL] *)
Definition strstr (hay needle : string) : bool :=
  match String.index 0 needle hay with
  | Some _ => true
  | None => false
  end.

Definition config_attribs : list egl_attr :=
  [AttrEnum EGL_RENDERABLE_TYPE EGL_OPENGL_ES3_BIT_KHR].

Definition attribs : list egl_attr :=
  [AttrInt EGL_CONTEXT_MAJOR_VERSION 3; AttrInt EGL_CONTEXT_MINOR_VERSION 1].

(** The unwinding labels of [init_egl]; each falls through to the next. *)
Definition err_gbm (conv : converter) : Run Z :=
  call (E_close (fd conv)) ;;
  ret (-1).

Definition err_egl_dpy (conv : converter) : Run Z :=
  call (E_gbm_device_destroy (gbm conv)) ;;
  err_gbm conv.

Definition err_egl_ctx (conv : converter) : Run Z :=
  call (E_eglTerminate (egl_dpy conv)) ;;
  err_egl_dpy conv.

Definition err_egl_make_current (conv : converter) : Run Z :=
  call (E_eglDestroyContext (egl_dpy conv) (core_ctx conv)) ;;
  err_egl_ctx conv.

(** Runs an unwinding label and returns its code with the context. *)
Definition unwind (conv : converter) (label : converter -> Run Z)
  : Run (Z * converter) :=
  r <- label conv ;;
  ret (r, conv).

Definition init_egl (w : egl_world) (conv : converter) (render_node : string)
  : Run (Z * converter) :=
  let conv := set_fd conv (open_res w) in
  call (E_open render_node O_RDWR (open_res w)) ;;
  if open_res w <? 0 then
    call (E_perror "init_opengl: ") ;;
    ret (-1, conv)
  else
  let conv := set_gbm conv (gbm_create_device_res w) in
  call (E_gbm_create_device (fd conv) (gbm_create_device_res w)) ;;
  if gbm_create_device_res w =? NULL then
    call (E_printf "init_opengl: failed to create GBM device\n" []) ;;
    unwind conv err_gbm
  else
  (* setup EGL from the GBM device *)
  let conv := set_egl_dpy conv (eglGetPlatformDisplay_res w) in
  call (E_eglGetPlatformDisplay EGL_PLATFORM_GBM_MESA (gbm conv)
          (eglGetPlatformDisplay_res w)) ;;
  if eglGetPlatformDisplay_res w =? NULL then
    call (E_printf "init_opengl: eglGetPlatformDisplay() failed\n" []) ;;
    unwind conv err_egl_dpy
  else
  (* initialize an EGL display connection *)
  call (E_eglInitialize (egl_dpy conv) (eglInitialize_res w)
          (egl_major w) (egl_minor w)) ;;
  if negb (eglInitialize_res w) then
    call (E_printf "init_opengl: eglInitialize() failed\n" []) ;;
    unwind conv err_egl_ctx
  else
  call (E_printf "EGL version: %d.%d\n"
          [PInt (egl_major w); PInt (egl_minor w)]) ;;
  let egl_extension_st := eglQueryString_res w in
  call (E_eglQueryString (egl_dpy conv) EGL_EXTENSIONS egl_extension_st) ;;
  if negb (strstr egl_extension_st "EGL_KHR_create_context")
     || negb (strstr egl_extension_st "EGL_KHR_surfaceless_context") then
    call (E_printf "init_opengl: EGL_KHR_create_context or EGL_KHR_surfaceless_context not supported\n" []) ;;
    unwind conv err_egl_ctx
  else
  call (E_eglChooseConfig (egl_dpy conv) config_attribs 0
          (count_query_res w) None (count_query_count w)) ;;
  (if negb (count_query_res w) then
     call (E_printf "init_opengl: eglChooseConfig(&cfg == NULL) failed\n" [])
   else ret tt) ;;
  call (E_printf "eglChooseConfig(): %d matching configs available\n"
          [PInt (count_query_count w)]) ;;
  (* Get the first EGL frame buffer configuration that matches the
     specified attributes - we request GL ES 3.x. *)
  let cfg := Some (eglChooseConfig_cfg w) in
  call (E_eglChooseConfig (egl_dpy conv) config_attribs 1
          (eglChooseConfig_res w) cfg (eglChooseConfig_count w)) ;;
  if negb (eglChooseConfig_res w) then
    call (E_eglGetError (eglGetError_res w)) ;;
    call (E_printf "init_opengl: eglChooseConfig() failed: %d\n"
            [PInt (eglGetError_res w)]) ;;
    unwind conv err_egl_ctx
  else
  call (E_eglBindAPI EGL_OPENGL_ES_API (eglBindAPI_res w)) ;;
  if negb (eglBindAPI_res w) then
    call (E_eglGetError (eglGetError_res w)) ;;
    call (E_printf "init_opengl: eglBindAPI() failed: %d\n"
            [PInt (eglGetError_res w)]) ;;
    unwind conv err_egl_ctx
  else
  let conv := set_core_ctx conv (eglCreateContext_res w) in
  call (E_eglCreateContext (egl_dpy conv) cfg EGL_NO_CONTEXT attribs
          (eglCreateContext_res w)) ;;
  if eglCreateContext_res w =? EGL_NO_CONTEXT then
    call (E_printf "init_opengl: eglCreateContext() failed\n" []) ;;
    unwind conv err_egl_ctx
  else
  (* eglMakeCurrent() binds context to the current rendering thread.
     We don't need neither draw nor read surfaces hence EGL_NO_SURFACE's. *)
  call (E_eglMakeCurrent (egl_dpy conv) EGL_NO_SURFACE EGL_NO_SURFACE
          (core_ctx conv) (eglMakeCurrent_res w)) ;;
  if negb (eglMakeCurrent_res w) then
    call (E_eglGetError (eglGetError_res w)) ;;
    call (E_printf "init_opengl: eglMakeCurrent() failed: %d\n"
            [PInt (eglGetError_res w)]) ;;
    unwind conv err_egl_make_current
  else
  call (E_glGetIntegerv GL_MAJOR_VERSION (gl_major w)) ;;
  call (E_glGetIntegerv GL_MINOR_VERSION (gl_minor w)) ;;
  call (E_printf "*** EGL version: %d.%d\n"
          [PInt (gl_major w); PInt (gl_minor w)]) ;;
  ret (0, conv).

Definition deinit_egl (conv : converter) : Run unit :=
  call (E_eglDestroyContext (egl_dpy conv) (core_ctx conv)) ;;
  call (E_eglTerminate (egl_dpy conv)) ;;
  call (E_gbm_device_destroy (gbm conv)) ;;
  call (E_close (fd conv)).

(** ** The compute shader *)

(** The character the C source writes as backslash-quote inside a string. *)
Definition dq : string := String (ascii_of_nat 34) EmptyString.

(** What GLES and the allocator answer during [init_shader]. *)
Record shader_world : Type := {
  glCreateShader_res : Z;
  err_create_shader : Z;      (* glGetError() after a refused glCreateShader *)
  err_shader_source : Z;      (* glGetError() after glShaderSource *)
  compile_status : Z;
  info_log_length : Z;
  log_malloc_res : Z;
  err_info_log : Z;           (* glGetError() after glGetShaderInfoLog *)
  glCreateProgram_res : Z;
  err_create_program : Z;     (* glGetError() after a refused glCreateProgram *)
  err_attach : Z;             (* glGetError() after glAttachShader *)
  err_link : Z                (* glGetError() after glLinkProgram *)
}.

Section WithShader.
Variable fs : file_system.
Variable w : shader_world.

Definition err_del_shader (conv : converter) (err : Z) : Run (Z * converter) :=
  call (E_glDeleteShader (compute_shader conv)) ;;
  ret (to_int err, conv).

Definition err_del_program (conv : converter) (err : Z) : Run (Z * converter) :=
  call (E_glDeleteProgram (shader_program conv)) ;;
  err_del_shader conv err.

Definition init_shader (conv : converter) : Run (Z * converter) :=
  rd <- read_input_text_file fs (shader_fname conv) ;;
  let shader_cnt := to_int (fst rd) in
  let shader_src := snd rd in
  if shader_cnt <=? 0 then
    call (E_printf ("Fail to read the shader source from file \" ++ dq
                      ++ "%s\" ++ dq ++ "\n")%string
            [PStr (shader_fname conv)]) ;;
    ret (GL_TRUE, conv) (* GL_NO_ERROR == GL_FALSE *)
  else
  call (E_printf ("%d bytes read from \" ++ dq ++ "%s\" ++ dq ++ "\n")%string
          [PInt shader_cnt; PStr (shader_fname conv)]) ;;
  let conv := set_compute_shader conv (glCreateShader_res w) in
  call (E_glCreateShader GL_COMPUTE_SHADER (glCreateShader_res w)) ;;
  if glCreateShader_res w =? 0 then
    call (E_free shader_src) ;;
    call (E_glGetError (err_create_shader w)) ;;
    ret (to_int (err_create_shader w), conv)
  else
  call (E_glShaderSource (compute_shader conv) 1 shader_src shader_cnt) ;;
  (* The shader source has been copied into the shader object, so
     shader_src[] contents is no longer needed. *)
  call (E_free shader_src) ;;
  let err := err_shader_source w in
  call (E_glGetError err) ;;
  if negb (err =? GL_NO_ERROR) then ret (to_int err, conv)
  else
  call (E_glCompileShader (compute_shader conv)) ;;
  let param := compile_status w in
  call (E_glGetShaderiv (compute_shader conv) GL_COMPILE_STATUS param) ;;
  if negb (param =? GL_TRUE) then
    let param := info_log_length w in
    call (E_glGetShaderiv (compute_shader conv) GL_INFO_LOG_LENGTH param) ;;
    call (E_printf "glCompileShader() failed" []) ;;
    let compile_log := log_malloc_res w in
    call (E_malloc param compile_log) ;;
    if compile_log =? NULL then
      call (E_printf ", no log is available\n" []) ;;
      ret (GL_TRUE, conv) (* GL_NO_ERROR == GL_FALSE *)
    else
      call (E_glGetShaderInfoLog (compute_shader conv) param compile_log) ;;
      call (E_glGetError (err_info_log w)) ;;
      (if err_info_log w =? GL_NO_ERROR then
         call (E_printf "glCompileShader failed:\n--- log ---\n%s\n--- log ---\n"
                 [PPtr compile_log])
       else ret tt) ;;
      call (E_free (Some compile_log)) ;;
      ret (GL_TRUE, conv)
  else
  let conv := set_shader_program conv (glCreateProgram_res w) in
  call (E_glCreateProgram (glCreateProgram_res w)) ;;
  if glCreateProgram_res w =? 0 then
    let err := err_create_program w in
    call (E_glGetError err) ;;
    err_del_shader conv err
  else
  call (E_glAttachShader (shader_program conv) (compute_shader conv)) ;;
  let err := err_attach w in
  call (E_glGetError err) ;;
  if negb (err =? GL_NO_ERROR) then err_del_program conv err
  else
  call (E_glLinkProgram (shader_program conv)) ;;
  let err := err_link w in
  call (E_glGetError err) ;;
  if negb (err =? GL_NO_ERROR) then err_del_program conv err
  else
  call (E_glDeleteShader (compute_shader conv)) ;;
  ret (0, conv).

End WithShader.

Definition free_shader (conv : converter) : Run unit :=
  (* glDeleteShader() had been called at this point *)
  call (E_glDeleteProgram (shader_program conv)).

(** ** Fixed geometry and the command line *)

Definition RENDER_NODE_FNAME : string := "/dev/dri/renderD128".
Definition SHADER_FNAME : string := "./debayer.comp".

Definition LSIZE_X : Z := 32.
Definition LSIZE_Y : Z := 8.
(** number of workgroups by X and Y *)
Definition WG_NUM_X : Z := 1920 / LSIZE_X.
Definition WG_NUM_Y : Z := 1080 / LSIZE_Y.

Definition USAGE : string :=
  "Usage: %s [-h] -s XxY -f <format> <inputfile> <outputfile>\n"
  ++ "-f <order>   Specify input file format\n"
  ++ "-s XxY       Specify input image size (e.g. 640x480)\n"
  ++ "-h           Shows this help\n".

(** The pair is the returned [int] and the value left in [*bo]. *)
Definition parse_bayer_order (p : option string) (bo : Z) : Z * Z :=
  (-1, bo). (* not implemented yet *)

(** ** getopt

    [getopt] belongs to libc, not to this program; it is modelled after its
    documented behaviour for an option string without optional arguments.
    The scanner's position is kept as the characters still to be read in the
    current option element ([cluster]), the elements not yet scanned
    ([rest]) and the non-options passed over so far ([skipped]): glibc moves
    those behind the options, so that once [getopt] has returned -1 they are
    [argv[optind]], [argv[optind+1]], ...  With [posix] set (POSIXLY_CORRECT)
    scanning stops at the first non-option instead.  The diagnostics
    [getopt] itself writes to stderr are not traced. *)

Record getopt_state : Type := {
  cluster : string;
  rest : list string;
  skipped : list string
}.

Definition getopt_start (args : list string) : getopt_state :=
  {| cluster := EmptyString; rest := args; skipped := [] |}.

Definition char_code (c : ascii) : Z := Z.of_nat (nat_of_ascii c).

(** Looks [c] up in the option string: [Some true] when the option takes an
    argument, [Some false] when it takes none, [None] when it is unknown. *)
Fixpoint lookup_option (optstring : string) (c : ascii) : option bool :=
  match optstring with
  | EmptyString => None
  | String o os =>
      if Ascii.eqb o c then
        Some match os with
             | String n _ => Ascii.eqb n ":"
             | EmptyString => false
             end
      else lookup_option os c
  end.

Inductive scan : Type :=
| OptionElement (c : ascii) (cl : string) (rest skipped : list string)
| NoMoreOptions (positional : list string).

(** Advances to the next option element. *)
Fixpoint advance (posix : bool) (rest skipped : list string) : scan :=
  match rest with
  | [] => NoMoreOptions skipped
  | a :: rest' =>
      match a with
      | String d (String c cl) =>
          if Ascii.eqb d "-" then
            if Ascii.eqb c "-" && String.eqb cl EmptyString then
              NoMoreOptions (skipped ++ rest')
            else OptionElement c cl rest' skipped
          else if posix then NoMoreOptions (skipped ++ rest)
          else advance posix rest' (skipped ++ [a])
      | _ =>
          if posix then NoMoreOptions (skipped ++ rest)
          else advance posix rest' (skipped ++ [a])
      end
  end.

(** Handles the option character [c], [cl] being what follows it in its
    element.  The triple is [getopt]'s return value, [optarg] and the new
    scanner state. *)
Definition take_option (optstring : string) (c : ascii) (cl : string)
    (rest skipped : list string) : Z * option string * getopt_state :=
  let unknown := char_code "?" in
  if Ascii.eqb c ":" then
    (unknown, None, {| cluster := cl; rest := rest; skipped := skipped |})
  else
    match lookup_option optstring c with
    | None =>
        (unknown, None, {| cluster := cl; rest := rest; skipped := skipped |})
    | Some false =>
        (char_code c, None,
         {| cluster := cl; rest := rest; skipped := skipped |})
    | Some true =>
        match cl, rest with
        | String _ _, _ =>
            (char_code c, Some cl,
             {| cluster := EmptyString; rest := rest; skipped := skipped |})
        | EmptyString, a :: rest' =>
            (char_code c, Some a,
             {| cluster := EmptyString; rest := rest'; skipped := skipped |})
        | EmptyString, [] =>
            (unknown, None,
             {| cluster := EmptyString; rest := []; skipped := skipped |})
        end
    end.

Definition getopt (posix : bool) (optstring : string) (st : getopt_state)
  : Z * option string * getopt_state :=
  match cluster st with
  | String c cl => take_option optstring c cl (rest st) (skipped st)
  | EmptyString =>
      match advance posix (rest st) (skipped st) with
      | OptionElement c cl rest' skipped' =>
          take_option optstring c cl rest' skipped'
      | NoMoreOptions positional =>
          (-1, None, {| cluster := EmptyString; rest := []; skipped := positional |})
      end
  end.

(** [argv[optind], ...] once [getopt] has returned -1. *)
Definition positional (st : getopt_state) : list string := skipped st.

Definition elements_budget (rest : list string) : nat :=
  fold_right (fun a n => S (String.length a + n))%nat O rest.

(** An upper bound on the number of [getopt] calls that return an option. *)
Definition getopt_budget (st : getopt_state) : nat :=
  String.length (cluster st) + elements_budget (rest st).

(** ** The entry point *)

(** How the process ends: [main] returns, or [exit] is called. *)
Inductive outcome : Type :=
| Returned (status : Z)
| Exited (status : Z).

(** How the option loop ends. *)
Inductive loop_exit : Type :=
| Break (st : getopt_state) (b_ord : Z)
| Return (status : Z).

(** Process cmd line options: [for (;;) { int c = getopt(...); ... }].
    [None] when [fuel] iterations did not reach the end of the loop. *)
Fixpoint process_options (fuel : nat) (posix : bool) (argv0 : string)
    (st : getopt_state) (b_ord : Z) : option (Run loop_exit) :=
  match fuel with
  | O => None
  | S fuel' =>
      let '(c, optarg, st') := getopt posix "f:h" st in
      if c =? -1 then Some (ret (Break st' b_ord))
      else if c =? char_code "f" then
        let (r, b_ord') := parse_bayer_order optarg b_ord in
        if r <? 0 then
          Some (call (E_printf "bad bayer order\n" []) ;;
                ret (Return (-1)))
        else process_options fuel' posix argv0 st' b_ord'
      else if c =? char_code "h" then
        Some (call (E_printf USAGE [PStr argv0]) ;;
              ret (Return 0))
      else process_options fuel' posix argv0 st' b_ord
  end.

(** What GLES answers while [main] drives the conversion. *)
Record gl_world : Type := {
  glGenBuffers_res : Z * Z;
  err_buffer_in : Z;          (* glGetError() after the input glBufferData *)
  err_buffer_out : Z;         (* glGetError() after the output glBufferData *)
  err_use_program : Z;        (* glGetError() after glUseProgram *)
  err_dispatch : Z;           (* glGetError() after glDispatchCompute *)
  glFenceSync_res : Z;
  glMapBufferRange_res : Z;
  err_map : Z                 (* glGetError() after a refused mapping *)
}.

(** Everything outside the program that a run depends on. *)
Record world : Type := {
  posixly_correct : bool;
  files : file_system;
  egl : egl_world;
  shader : shader_world;
  gl : gl_world
}.

Definition use_shader (g : gl_world) (shader_program : var) : Run Z :=
  call (E_glUseProgram shader_program) ;;
  call (E_glGetError (err_use_program g)) ;;
  ret (if negb (err_use_program g =? GL_NO_ERROR) then 1 else 0).

(** The locals a dispatch iteration may assign. *)
Record dispatch_vars : Type := {
  v_err : Z;
  v_sync : var
}.

(** One iteration of the dispatch loop; the flag tells whether it left the
    loop through [break]. *)
Definition dispatch_body (g : gl_world) (cvt : converter) (v : dispatch_vars)
  : Run (dispatch_vars * bool) :=
  r <- use_shader g (shader_program cvt) ;;
  if negb (r =? 0) then
    call (E_printf "use_shader() failed \n" []) ;;
    ret (v, true)
  else
  call (E_glDispatchCompute WG_NUM_X WG_NUM_Y 1) ;;
  let v := {| v_err := err_dispatch g; v_sync := v_sync v |} in
  call (E_glGetError (v_err v)) ;;
  if negb (v_err v =? GL_NO_ERROR) then
    call (E_printf "glDispatchCompute() error 0x%04X\n" [PInt (v_err v)]) ;;
    ret (v, true)
  else
  call (E_glMemoryBarrier GL_ALL_BARRIER_BITS) ;;
  call (E_glFenceSync GL_SYNC_GPU_COMMANDS_COMPLETE 0 (glFenceSync_res g)) ;;
  ret ({| v_err := v_err v; v_sync := Some (glFenceSync_res g) |}, false).

(** [for (i = 0; i < bound; i++) body], [left] iterations before [i]
    reaches the bound. *)
Fixpoint for_loop {S : Type} (left : nat) (body : S -> Run (S * bool)) (s : S)
  : Run S :=
  match left with
  | O => ret s
  | Datatypes.S left' =>
      r <- body s ;;
      if snd r then ret (fst r) else for_loop left' body (fst r)
  end.

(** Cleanup and exit: the code from the label [err_buffs] on. *)
Definition err_buffs (cvt : converter) (p_data_in : var) (err : Z) : Run Z :=
  call (E_glDeleteBuffers bo_num (bos cvt)) ;;
  free_shader cvt ;;
  deinit_egl cvt ;;
  call (E_free p_data_in) ;;
  ret (to_int err).

(** The timeout [main] gives to glClientWaitSync. *)
Definition fence_timeout : Z := 100 * 1000. (* 100mS *)

(** [main] from "Do the things here..." to its last [return]. *)
Definition convert (w : world) (cvt : converter) (p_data_in : var)
    (data_in_size data_out_size : Z) (outfile : string) : Run Z :=
  let g := gl w in
  let cvt := set_bos cvt (glGenBuffers_res g) in
  call (E_glGenBuffers bo_num (glGenBuffers_res g)) ;;
  call (E_glBindBuffer GL_SHADER_STORAGE_BUFFER (bo_in (bos cvt))) ;;
  call (E_glBufferData GL_SHADER_STORAGE_BUFFER (to_int data_in_size)
          p_data_in GL_STREAM_DRAW) ;;
  let err := err_buffer_in g in
  call (E_glGetError err) ;;
  if negb (err =? GL_NO_ERROR) then
    call (E_printf "glBufferData(in, size=%ld) error 0x%04X\n"
            [PInt data_in_size; PInt err]) ;;
    err_buffs cvt p_data_in err
  else
  call (E_glBindBuffer GL_SHADER_STORAGE_BUFFER (bo_out (bos cvt))) ;;
  call (E_glBufferData GL_SHADER_STORAGE_BUFFER (to_int data_out_size)
          (Some NULL) GL_STREAM_READ) ;;
  let err := err_buffer_out g in
  call (E_glGetError err) ;;
  if negb (err =? GL_NO_ERROR) then
    call (E_printf "glBufferData(out, size=%ld) error 0x%04X\n"
            [PInt data_out_size; PInt err]) ;;
    err_buffs cvt p_data_in err
  else
  call (E_glBindBufferBase GL_SHADER_STORAGE_BUFFER 0 (bo_in (bos cvt))) ;;
  call (E_glBindBufferBase GL_SHADER_STORAGE_BUFFER 1 (bo_out (bos cvt))) ;;
  v <- for_loop (Z.to_nat (1 - 0)) (dispatch_body g cvt)
         {| v_err := err; v_sync := None |} ;;
  call (E_glClientWaitSync (v_sync v) GL_SYNC_FLUSH_COMMANDS_BIT fence_timeout) ;;
  (* Write the output buffer to the file *)
  call (E_glBindBuffer GL_SHADER_STORAGE_BUFFER (bo_out (bos cvt))) ;;
  let data := glMapBufferRange_res g in
  call (E_glMapBufferRange GL_SHADER_STORAGE_BUFFER 0 data_out_size
          GL_MAP_READ_BIT data) ;;
  (if data =? NULL then
     call (E_glGetError (err_map g)) ;;
     call (E_printf "glMapBufferRange(out) error 0x%04X\n" [PInt (err_map g)])
   else
     n <- write_output_file (files w) outfile data data_out_size ;;
     (if n =? data_out_size then
        call (E_printf "%s: %ld bytes written\n"
                [PStr outfile; PInt data_out_size])
      else ret tt) ;;
     call (E_glUnmapBuffer GL_COPY_WRITE_BUFFER)) ;;
  err_buffs cvt p_data_in (v_err v).

(** [main] once the option loop has ended with [break]. *)
Definition main_after_options (w : world) (st : getopt_state) : Run outcome :=
  let cvt := cvt_declared SHADER_FNAME in
  match positional st with
  | [infile; outfile] =>
      (* Read the file to process into memory *)
      rd <- read_input_bin_file (files w) infile ;;
      let data_in_size := fst rd in
      let p_data_in := snd rd in
      if data_in_size <=? 0 then
        call (E_printf ("Failed to read input file \" ++ dq ++ "%s\" ++ dq
                          ++ "\n")%string [PStr infile]) ;;
        ret (Returned (-1))
      else
      let data_out_size := to_long (4 * data_in_size) in
      (* Initialize OpenGL stuff *)
      r_egl <- init_egl (egl w) cvt RENDER_NODE_FNAME ;;
      if negb (fst r_egl =? 0) then
        call (E_printf "EGL initialization failed\n" []) ;;
        ret (Exited EXIT_FAILURE)
      else
      r_sh <- init_shader (files w) (shader w) (snd r_egl) ;;
      if negb (fst r_sh =? 0) then
        call (E_printf "Shader creation failed\n" []) ;;
        ret (Exited EXIT_FAILURE)
      else
      r <- convert w (snd r_sh) p_data_in data_in_size data_out_size outfile ;;
      ret (Returned r)
  | _ =>
      (* argc - optind != 2 *)
      call (E_printf "Give input and output files\n" []) ;;
      ret (Returned (-1))
  end.

(** [main (argc, argv)] with [argv = argv0 :: args]; [None] only if the
    option loop were not to end within its budget. *)
Definition main (w : world) (argv0 : string) (args : list string)
  : option (Run outcome) :=
  let st := getopt_start args in
  match process_options (S (getopt_budget st)) (posixly_correct w) argv0 st (-1)
  with
  | None => None
  | Some opts =>
      Some (x <- opts ;;
            match x with
            | Return status => ret (Returned status)
            | Break st' _ => main_after_options w st'
            end)
  end.

(** ** Sample worlds

    A machine on which every step succeeds: a 100-byte input file, a
    render node and a shader that compiles. *)

Definition no_file : file_io :=
  {| fopen_res := NULL; ftell_res := 0; malloc_res := NULL;
     fread_res := 0; fwrite_res := 0; fclose_res := 0 |}.

Definition sample_files : file_system :=
  fun fname mode =>
    if String.eqb fname "in.raw" && String.eqb mode "rb" then
      {| fopen_res := 1001; ftell_res := 100; malloc_res := 2001;
         fread_res := 100; fwrite_res := 0; fclose_res := 0 |}
    else if String.eqb fname SHADER_FNAME && String.eqb mode "r" then
      {| fopen_res := 1002; ftell_res := 640; malloc_res := 2002;
         fread_res := 640; fwrite_res := 0; fclose_res := 0 |}
    else if String.eqb fname "out.rgba" && String.eqb mode "wb" then
      {| fopen_res := 1003; ftell_res := 0; malloc_res := NULL;
         fread_res := 0; fwrite_res := 400; fclose_res := 0 |}
    else no_file.

Definition sample_egl : egl_world :=
  {| open_res := 3;
     gbm_create_device_res := 3001;
     eglGetPlatformDisplay_res := 3002;
     eglInitialize_res := true;
     egl_major := 1;
     egl_minor := 5;
     eglQueryString_res :=
       "EGL_KHR_create_context EGL_KHR_surfaceless_context EGL_MESA_platform_gbm";
     count_query_res := true;
     count_query_count := 4;
     eglChooseConfig_res := true;
     eglChooseConfig_cfg := 3003;
     eglChooseConfig_count := 1;
     eglGetError_res := 12288;
     eglBindAPI_res := true;
     eglCreateContext_res := 3004;
     eglMakeCurrent_res := true;
     gl_major := 3;
     gl_minor := 1 |}.

Definition sample_shader : shader_world :=
  {| glCreateShader_res := 1;
     err_create_shader := GL_NO_ERROR;
     err_shader_source := GL_NO_ERROR;
     compile_status := GL_TRUE;
     info_log_length := 0;
     log_malloc_res := NULL;
     err_info_log := GL_NO_ERROR;
     glCreateProgram_res := 2;
     err_create_program := GL_NO_ERROR;
     err_attach := GL_NO_ERROR;
     err_link := GL_NO_ERROR |}.

Definition sample_gl : gl_world :=
  {| glGenBuffers_res := (11, 12);
     err_buffer_in := GL_NO_ERROR;
     err_buffer_out := GL_NO_ERROR;
     err_use_program := GL_NO_ERROR;
     err_dispatch := GL_NO_ERROR;
     glFenceSync_res := 4001;
     glMapBufferRange_res := 5001;
     err_map := GL_NO_ERROR |}.

Definition sample_world : world :=
  {| posixly_correct := false;
     files := sample_files;
     egl := sample_egl;
     shader := sample_shader;
     gl := sample_gl |}.

(** ** Vocabulary of the properties *)

(** The four resources [init_egl] acquires, named by their handle; a
    rendering context belongs to a display and is named by the two. *)
Inductive resource : Type :=
| R_fd (h : var)
| R_gbm (h : var)
| R_dpy (h : var)
| R_ctx (dpy h : var).

(** The resource a call hands out, when it succeeds: eglCreateContext
    hands out a context of the display it is called on. *)
Definition acquires (e : event) : list resource :=
  match e with
  | E_open _ _ r => if r <? 0 then [] else [R_fd (Some r)]
  | E_gbm_create_device _ r => if r =? NULL then [] else [R_gbm (Some r)]
  | E_eglGetPlatformDisplay _ _ r => if r =? NULL then [] else [R_dpy (Some r)]
  | E_eglCreateContext dpy _ _ _ r =>
      if r =? EGL_NO_CONTEXT then [] else [R_ctx dpy (Some r)]
  | _ => []
  end.

(** The resource a call gives back, named by the handles the call is
    given: eglDestroyContext gives back the context of the display it is
    called on, so a call on another display, or on a variable that was never
    assigned, gives back another resource. *)
Definition releases (e : event) : list resource :=
  match e with
  | E_close h => [R_fd h]
  | E_gbm_device_destroy h => [R_gbm h]
  | E_eglTerminate h => [R_dpy h]
  | E_eglDestroyContext dpy h => [R_ctx dpy h]
  | _ => []
  end.

Definition acquired (t : trace) : list resource := flat_map acquires t.
Definition released (t : trace) : list resource := flat_map releases t.

(** The sample machine, except that EGL refuses to make the context
    current. *)
Definition egl_refusing_current : egl_world :=
  {| open_res := 3;
     gbm_create_device_res := 3001;
     eglGetPlatformDisplay_res := 3002;
     eglInitialize_res := true;
     egl_major := 1;
     egl_minor := 5;
     eglQueryString_res :=
       "EGL_KHR_create_context EGL_KHR_surfaceless_context EGL_MESA_platform_gbm";
     count_query_res := true;
     count_query_count := 4;
     eglChooseConfig_res := true;
     eglChooseConfig_cfg := 3003;
     eglChooseConfig_count := 1;
     eglGetError_res := 12288;
     eglBindAPI_res := true;
     eglCreateContext_res := 3004;
     eglMakeCurrent_res := false;
     gl_major := 3;
     gl_minor := 1 |}.

(** The values [getopt] returns, call after call, until it returns -1. *)
Fixpoint getopt_codes (fuel : nat) (posix : bool) (optstring : string)
    (st : getopt_state) : list Z :=
  match fuel with
  | O => []
  | S fuel' =>
      let '(c, _, st') := getopt posix optstring st in
      if c =? -1 then []
      else c :: getopt_codes fuel' posix optstring st'
  end.

(** The options [main]'s loop is handed for the arguments [args]. *)
Definition reported_options (posix : bool) (args : list string) : list Z :=
  getopt_codes (S (getopt_budget (getopt_start args))) posix "f:h"
    (getopt_start args).

(** Whether a run opens a file for writing or writes to one. *)
Definition writes_file (e : event) : bool :=
  match e with
  | E_fopen _ mode _ => String.eqb mode "wb"
  | E_fwrite _ _ _ _ _ => true
  | _ => false
  end.

Definition writes_output (t : trace) : bool := existsb writes_file t.

(** The calls only the conversion itself makes: the program issues none of
    them before "Do the things here...". *)
Definition conversion_event (e : event) : bool :=
  match e with
  | E_fopen _ mode _ => String.eqb mode "wb"
  | E_fwrite _ _ _ _ _ => true
  | E_glUseProgram _ => true
  | E_glBufferData _ _ _ _ => true
  | E_glDispatchCompute _ _ _ => true
  | E_glFenceSync _ _ _ => true
  | E_glClientWaitSync _ _ _ => true
  | E_glMapBufferRange _ _ _ _ _ => true
  | _ => false
  end.

Definition setup_only (t : trace) : bool :=
  forallb (fun e => negb (conversion_event e)) t.

(** The run begins by reading an input file of [size] bytes in full. *)
Definition input_read (t : trace) (size : Z) : Prop :=
  exists infile fp p rc t',
    t = [E_fopen infile "rb" fp; E_fseek fp 0 SEEK_END; E_ftell fp size;
         E_fseek fp 0 SEEK_SET; E_malloc size p; E_fread p 1 size fp size;
         E_fclose fp rc] ++ t'.

(** The dispatch iteration ran to its end: the fence was created. *)
Definition dispatch_ok (t : trace) : Prop :=
  exists h, In (E_glFenceSync GL_SYNC_GPU_COMMANDS_COMPLETE 0 h) t.

(** The output buffer was mapped. *)
Definition mapping_ok (t : trace) : Prop :=
  exists len d,
    d <> NULL /\
    In (E_glMapBufferRange GL_SHADER_STORAGE_BUFFER 0 len GL_MAP_READ_BIT d) t.


(** The run begins by reading an input file of [size] bytes in full into
    the buffer [p]. *)
Definition input_read_into (t : trace) (size p : Z) : Prop :=
  exists infile fp rc t',
    t = [E_fopen infile "rb" fp; E_fseek fp 0 SEEK_END; E_ftell fp size;
         E_fseek fp 0 SEEK_SET; E_malloc size p; E_fread p 1 size fp size;
         E_fclose fp rc] ++ t'.

(** The operands the option loop leaves to [main]: [argv[optind]], ... once
    [getopt] has returned -1. *)
Fixpoint operands_from (fuel : nat) (posix : bool) (st : getopt_state)
  : list string :=
  match fuel with
  | O => []
  | S fuel' =>
      let '(c, _, st') := getopt posix "f:h" st in
      if c =? -1 then positional st' else operands_from fuel' posix st'
  end.

Definition operands (posix : bool) (args : list string) : list string :=
  operands_from (S (getopt_budget (getopt_start args))) posix
    (getopt_start args).

(** No character of [cl] is an option letter [main] handles. *)
Fixpoint unhandled_letters (cl : string) : bool :=
  match cl with
  | EmptyString => true
  | String c cl' =>
      negb (Ascii.eqb c "f") && negb (Ascii.eqb c "h") && unhandled_letters cl'
  end.





(** The sample machine with a directory that refuses the output file. *)
Definition readonly_files : file_system :=
  fun fname mode =>
    if String.eqb mode "wb" then no_file else sample_files fname mode.

Definition readonly_world : world :=
  {| posixly_correct := false;
     files := readonly_files;
     egl := sample_egl;
     shader := sample_shader;
     gl := sample_gl |}.

(** The sample machine with an input file of 2^30 bytes. *)
Definition huge_files : file_system :=
  fun fname mode =>
    if String.eqb fname "in.raw" && String.eqb mode "rb" then
      {| fopen_res := 1001; ftell_res := 2 ^ 30; malloc_res := 2001;
         fread_res := 2 ^ 30; fwrite_res := 0; fclose_res := 0 |}
    else sample_files fname mode.

Definition huge_world : world :=
  {| posixly_correct := false;
     files := huge_files;
     egl := sample_egl;
     shader := sample_shader;
     gl := sample_gl |}.

(** The run of the sample machine on an input and an output file. *)
Definition sample_trace : trace := Eval vm_compute in
    match main sample_world "debayer" ["in.raw"; "out.rgba"] with
    | Some r => events r
    | None => []
    end.

(** The same run where the output file cannot be opened. *)
Definition readonly_trace : trace := Eval vm_compute in
    match main readonly_world "debayer" ["in.raw"; "out.rgba"] with
    | Some r => events r
    | None => []
    end.



(** The sample machine with a program object that GLES refuses to use:
    glGetError() answers GL_INVALID_OPERATION after glUseProgram. *)
Definition GL_INVALID_OPERATION : Z := 1282.

Definition unusable_program_gl : gl_world :=
  {| glGenBuffers_res := (11, 12);
     err_buffer_in := GL_NO_ERROR;
     err_buffer_out := GL_NO_ERROR;
     err_use_program := GL_INVALID_OPERATION;
     err_dispatch := GL_NO_ERROR;
     glFenceSync_res := 4001;
     glMapBufferRange_res := 5001;
     err_map := GL_NO_ERROR |}.

Definition unusable_program_world : world :=
  {| posixly_correct := false;
     files := sample_files;
     egl := sample_egl;
     shader := sample_shader;
     gl := unusable_program_gl |}.

Definition unusable_program_trace : trace := Eval vm_compute in
    match main unusable_program_world "debayer" ["in.raw"; "out.rgba"] with
    | Some r => events r
    | None => []
    end.

(** The sample machine with a driver that cannot map the output buffer. *)
Definition unmappable_gl : gl_world :=
  {| glGenBuffers_res := (11, 12);
     err_buffer_in := GL_NO_ERROR;
     err_buffer_out := GL_NO_ERROR;
     err_use_program := GL_NO_ERROR;
     err_dispatch := GL_NO_ERROR;
     glFenceSync_res := 4001;
     glMapBufferRange_res := NULL;
     err_map := GL_INVALID_OPERATION |}.

Definition unmappable_world : world :=
  {| posixly_correct := false;
     files := sample_files;
     egl := sample_egl;
     shader := sample_shader;
     gl := unmappable_gl |}.

Definition unmappable_trace : trace := Eval vm_compute in
    match main unmappable_world "debayer" ["in.raw"; "out.rgba"] with
    | Some r => events r
    | None => []
    end.

Definition is_use_program (e : event) : bool :=
  match e with
  | E_glUseProgram _ => true
  | _ => false
  end.

Definition is_fence_wait (e : event) : bool :=
  match e with
  | E_glClientWaitSync _ _ _ => true
  | _ => false
  end.

(** How many events of a kind a run holds. *)
Definition count_events (f : event -> bool) (t : trace) : nat :=
  List.length (filter f t).

(** glClientWaitSync takes its timeout in nanoseconds. *)
Definition NS_PER_MS : Z := 1000000.

(** The teardown of a run that holds the buffers [b], the program variable
    [prog], the context [ctx] on the display [dpy], the GBM device [g], the
    descriptor [f] and the input buffer [p]. *)
Definition teardown_of (b : Z * Z) (prog : var) (dpy ctx g f p : Z) : trace :=
  [E_glDeleteBuffers bo_num (Some (fst b), Some (snd b));
   E_glDeleteProgram prog;
   E_eglDestroyContext (Some dpy) (Some ctx);
   E_eglTerminate (Some dpy);
   E_gbm_device_destroy (Some g);
   E_close (Some f);
   E_free (Some p)].

(** What the program does from the label [err_buffs] on. *)
Definition teardown (cvt : converter) (p_data_in : var) : trace :=
  [E_glDeleteBuffers bo_num (bos cvt);
   E_glDeleteProgram (shader_program cvt);
   E_eglDestroyContext (egl_dpy cvt) (core_ctx cvt);
   E_eglTerminate (egl_dpy cvt);
   E_gbm_device_destroy (gbm cvt);
   E_close (fd cvt);
   E_free p_data_in].

(** ** Vocabulary of the further properties *)

Definition is_fopen (e : event) : bool :=
  match e with
  | E_fopen _ _ _ => true
  | _ => false
  end.

Definition is_fclose (e : event) : bool :=
  match e with
  | E_fclose _ _ => true
  | _ => false
  end.

Definition is_fwrite (e : event) : bool :=
  match e with
  | E_fwrite _ _ _ _ _ => true
  | _ => false
  end.



(** Takes the buffer [p] out of the live ones; [None] when it is not
    among them. *)
Fixpoint take_out (p : Z) (live : list Z) : option (list Z) :=
  match live with
  | [] => None
  | q :: live' =>
      if q =? p then Some live'
      else match take_out p live' with
           | Some l => Some (q :: l)
           | None => None
           end
  end.

(** The buffers that are live after the events [t], [live] being the ones
    that were before: a [malloc] that returns a buffer adds it, a [free]
    takes its buffer out.  [None] when the run frees what is not live: a
    buffer a second time, a pointer [malloc] never returned, or a variable
    that was never assigned. *)
Fixpoint heap_after (t : trace) (live : list Z) : option (list Z) :=
  match t with
  | [] => Some live
  | E_malloc _ r :: t' =>
      heap_after t' (if r =? NULL then live else r :: live)
  | E_free (Some p) :: t' =>
      match take_out p live with
      | Some live' => heap_after t' live'
      | None => None
      end
  | E_free None :: t' => None
  | _ :: t' => heap_after t' live
  end.

(** A machine on which no file can be opened. *)
Definition no_file_system : file_system := fun _ _ => no_file.

Definition is_delete_shader (e : event) : bool :=
  match e with
  | E_glDeleteShader _ => true
  | _ => false
  end.

Definition is_create_program (e : event) : bool :=
  match e with
  | E_glCreateProgram _ => true
  | _ => false
  end.

(** The values of a [GLenum], an unsigned integer of 32 bits. *)
Definition is_GLenum (z : Z) : Prop := 0 <= z < 2 ^ 32.

(** The sample driver, except that the link of the program fails. *)
Definition unlinkable_shader : shader_world :=
  {| glCreateShader_res := 1;
     err_create_shader := GL_NO_ERROR;
     err_shader_source := GL_NO_ERROR;
     compile_status := GL_TRUE;
     info_log_length := 0;
     log_malloc_res := NULL;
     err_info_log := GL_NO_ERROR;
     glCreateProgram_res := 2;
     err_create_program := GL_NO_ERROR;
     err_attach := GL_NO_ERROR;
     err_link := GL_INVALID_OPERATION |}.

(** An argument [getopt] takes for a non-option: it does not begin with a
    dash, or it is the dash alone. *)
Definition nonoption (a : string) : bool :=
  match a with
  | String d (String _ _) => negb (Ascii.eqb d "-")
  | _ => true
  end.

(** The four stages of a run of [main] that got two file names. *)
Definition phase_read (w : world) (infile : string) : Run (Z * var) :=
  read_input_bin_file (files w) infile.

Definition phase_egl (w : world) : Run (Z * converter) :=
  init_egl (egl w) (cvt_declared SHADER_FNAME) RENDER_NODE_FNAME.

Definition phase_shader (w : world) : Run (Z * converter) :=
  init_shader (files w) (shader w) (snd (result (phase_egl w))).

Definition phase_convert (w : world) (infile outfile : string) : Run Z :=
  convert w (snd (result (phase_shader w)))
    (snd (result (phase_read w infile)))
    (fst (result (phase_read w infile)))
    (to_long (4 * fst (result (phase_read w infile))))
    outfile.

(** The seven ways a run of [main] can go, each with its trace and its
    outcome. *)
Inductive main_run (w : world) (argv0 : string) : trace -> outcome -> Prop :=
| run_bad_order :
    main_run w argv0 [E_printf "bad bayer order\n" []] (Returned (-1))
| run_usage :
    main_run w argv0 [E_printf USAGE [PStr argv0]] (Returned 0)
| run_bad_arguments :
    main_run w argv0 [E_printf "Give input and output files\n" []]
      (Returned (-1))
| run_unreadable (infile : string) :
    fst (result (phase_read w infile)) <= 0 ->
    main_run w argv0
      (events (phase_read w infile)
       ++ [E_printf ("Failed to read input file \" ++ dq ++ "%s\" ++ dq
                       ++ "\n")%string [PStr infile]])
      (Returned (-1))
| run_no_egl (infile : string) :
    0 < fst (result (phase_read w infile)) ->
    fst (result (phase_egl w)) <> 0 ->
    main_run w argv0
      (events (phase_read w infile) ++ events (phase_egl w)
       ++ [E_printf "EGL initialization failed\n" []])
      (Exited EXIT_FAILURE)
| run_no_shader (infile : string) :
    0 < fst (result (phase_read w infile)) ->
    fst (result (phase_egl w)) = 0 ->
    fst (result (phase_shader w)) <> 0 ->
    main_run w argv0
      (events (phase_read w infile) ++ events (phase_egl w)
       ++ events (phase_shader w)
       ++ [E_printf "Shader creation failed\n" []])
      (Exited EXIT_FAILURE)
| run_converted (infile outfile : string) :
    0 < fst (result (phase_read w infile)) ->
    fst (result (phase_egl w)) = 0 ->
    fst (result (phase_shader w)) = 0 ->
    main_run w argv0
      (events (phase_read w infile) ++ events (phase_egl w)
       ++ events (phase_shader w) ++ events (phase_convert w infile outfile))
      (Returned (result (phase_convert w infile outfile))).

(** The calls made while the input is read and EGL and the shader are set
    up. *)
Definition is_setup_call (e : event) : bool :=
  match e with
  | E_fopen _ _ _ | E_fseek _ _ _ | E_ftell _ _ | E_malloc _ _
  | E_fread _ _ _ _ _ | E_free _ | E_fclose _ _ | E_printf _ _ | E_perror _
  | E_open _ _ _ | E_close _ | E_gbm_create_device _ _
  | E_gbm_device_destroy _ | E_eglGetPlatformDisplay _ _ _
  | E_eglInitialize _ _ _ _ | E_eglQueryString _ _ _
  | E_eglChooseConfig _ _ _ _ _ _ | E_eglGetError _ | E_eglBindAPI _ _
  | E_eglCreateContext _ _ _ _ _ | E_eglMakeCurrent _ _ _ _ _
  | E_eglDestroyContext _ _ | E_eglTerminate _ | E_glGetError _
  | E_glGetIntegerv _ _ | E_glCreateShader _ _ | E_glShaderSource _ _ _ _
  | E_glCompileShader _ | E_glGetShaderiv _ _ _
  | E_glGetShaderInfoLog _ _ _ | E_glCreateProgram _
  | E_glAttachShader _ _ | E_glLinkProgram _ | E_glDeleteShader _
  | E_glDeleteProgram _ => true
  | _ => false
  end.

(** The sample machine without the shader's source file. *)
Definition no_shader_files : file_system :=
  fun fname mode =>
    if String.eqb fname SHADER_FNAME then no_file else sample_files fname mode.

Definition no_shader_world : world :=
  {| posixly_correct := false;
     files := no_shader_files;
     egl := sample_egl;
     shader := sample_shader;
     gl := sample_gl |}.

Definition no_shader_trace : trace := Eval vm_compute in
    match main no_shader_world "debayer" ["in.raw"; "out.rgba"] with
    | Some r => events r
    | None => []
    end.

(** The calls into stdio and the allocator. *)
Definition is_stdio_call (e : event) : bool :=
  match e with
  | E_fopen _ _ _ | E_fseek _ _ _ | E_ftell _ _ | E_malloc _ _
  | E_fread _ _ _ _ _ | E_fwrite _ _ _ _ _ | E_free _ | E_fclose _ _
  | E_printf _ _ => true
  | _ => false
  end.

Definition is_buffer_data (e : event) : bool :=
  match e with
  | E_glBufferData _ _ _ _ => true
  | _ => false
  end.

(** The sample machine with an input file that cannot be opened. *)
Definition no_input_files : file_system :=
  fun fname mode =>
    if String.eqb fname "in.raw" then no_file else sample_files fname mode.

Definition no_input_world : world :=
  {| posixly_correct := false;
     files := no_input_files;
     egl := sample_egl;
     shader := sample_shader;
     gl := sample_gl |}.

(** The sample machine with a driver that rejects the input upload:
    glGetError() answers GL_OUT_OF_MEMORY after the first glBufferData. *)
Definition GL_OUT_OF_MEMORY : Z := 1285.

Definition full_gl : gl_world :=
  {| glGenBuffers_res := (11, 12);
     err_buffer_in := GL_OUT_OF_MEMORY;
     err_buffer_out := GL_NO_ERROR;
     err_use_program := GL_NO_ERROR;
     err_dispatch := GL_NO_ERROR;
     glFenceSync_res := 4001;
     glMapBufferRange_res := 5001;
     err_map := GL_NO_ERROR |}.

Definition full_world : world :=
  {| posixly_correct := false;
     files := sample_files;
     egl := sample_egl;
     shader := sample_shader;
     gl := full_gl |}.

Definition full_trace : trace := Eval vm_compute in
    match main full_world "debayer" ["in.raw"; "out.rgba"] with
    | Some r => events r
    | None => []
    end.

(** The sample machine with a driver that refuses the shader object
    without raising an error. *)
Definition silent_shader : shader_world :=
  {| glCreateShader_res := 0;
     err_create_shader := GL_NO_ERROR;
     err_shader_source := GL_NO_ERROR;
     compile_status := GL_TRUE;
     info_log_length := 0;
     log_malloc_res := NULL;
     err_info_log := GL_NO_ERROR;
     glCreateProgram_res := 2;
     err_create_program := GL_NO_ERROR;
     err_attach := GL_NO_ERROR;
     err_link := GL_NO_ERROR |}.

Definition silent_world : world :=
  {| posixly_correct := false;
     files := sample_files;
     egl := sample_egl;
     shader := silent_shader;
     gl := sample_gl |}.

Definition silent_trace : trace := Eval vm_compute in
    match main silent_world "debayer" ["in.raw"; "out.rgba"] with
    | Some r => events r
    | None => []
    end.

(** * Properties *)

(** ** Proof automation *)

(** Recognises a numeral. *)
Ltac is_literal z :=
  lazymatch z with
  | Z0 => idtac
  | Zpos _ => idtac
  | Zneg _ => idtac
  end.

(** Decides the next undetermined condition of a run, reusing what is
    already known about it; a comparison of numerals is computed. *)
Ltac branch :=
  match goal with
  | |- context [?a =? ?b] =>
      is_literal a; is_literal b;
      let v := eval cbv in (a =? b) in change (a =? b) with v
  | H : ?c = _ |- context [if ?c then _ else _] => rewrite H
  | |- context [if ?c then _ else _] =>
      lazymatch c with
      | context [if _ then _ else _] => fail
      | _ => destruct c eqn:?
      end
  end.

(** Unfolds a run without opening the comparisons it depends on. *)
Ltac step := cbn -[strstr Z.ltb Z.eqb Z.leb to_int to_long String.eqb].

(** Explores every path of a run. *)
Ltac paths := repeat (step; branch); step.

(** Splits a concrete trace at the first point that satisfies the goal. *)
Ltac split_trace :=
  lazymatch goal with
  | |- exists t1 t2, ?l = t1 ++ t2 /\ _ =>
      let rec go pre l :=
        first
          [ exists (rev pre), l;
            split; [reflexivity | split; step; repeat branch; reflexivity]
          | lazymatch l with
            | ?x :: ?l' => go (x :: pre) l'
            end ]
      in go (@nil event) l
  end.

(** Turns the recorded outcomes of conditions into arithmetic facts. *)
Ltac bools :=
  repeat match goal with
  | H : negb _ = true |- _ => apply negb_true_iff in H
  | H : negb _ = false |- _ => apply negb_false_iff in H
  | H : (_ =? _) = true |- _ => apply Z.eqb_eq in H
  | H : (_ =? _) = false |- _ => apply Z.eqb_neq in H
  | H : (_ <=? _) = true |- _ => apply Z.leb_le in H
  | H : (_ <=? _) = false |- _ => apply Z.leb_gt in H
  | H : (_ <? _) = true |- _ => apply Z.ltb_lt in H
  | H : (_ <? _) = false |- _ => apply Z.ltb_ge in H
  end.



(** Analyses the membership of an event in a concrete trace. *)
Ltac members H :=
  cbn in H;
  repeat (destruct H as [H | H];
          [first [discriminate H
                 | progress subst
                 | injection H; clear H; intros; subst
                 | idtac] |]);
  try contradiction.

(** Explores every path of [convert] in a goal [convert ... = (t, r) -> _]. *)
Ltac convert_paths :=
  unfold convert, err_buffs, free_shader, deinit_egl, write_output_file,
    dispatch_body, use_shader;
  change (Z.to_nat (1 - 0)) with 1%nat;
  paths;
  let H := fresh "Hrun" in
  intros H; injection H as <- <-.

(** Rewrites with the recorded outcomes of conditions wherever they occur. *)
Ltac known :=
  repeat match goal with
         | H : ?c = ?b |- context [?c] =>
             lazymatch b with
             | true => idtac
             | false => idtac
             end;
             lazymatch c with
             | true => fail
             | false => fail
             | _ => rewrite H
             end
         end.

(** Strips the negation from the recorded outcomes of conditions. *)
Ltac unneg :=
  repeat match goal with
         | H : negb _ = true |- _ => apply negb_true_iff in H
         | H : negb _ = false |- _ => apply negb_false_iff in H
         end.

(** Shows an event in a concrete trace that holds it. *)
Ltac present :=
  cbn;
  repeat match goal with
         | |- _ \/ _ => first [left; reflexivity | right]
         end.


Lemma events_bind {A B : Type} (m : Run A) (k : A -> Run B) :
  events (bind m k) = events m ++ events (k (result m)).
Proof.
  unfold bind, events, result.
  destruct m as [t1 a]; cbn. destruct (k a); reflexivity.
Qed.

Lemma result_bind {A B : Type} (m : Run A) (k : A -> Run B) :
  result (bind m k) = result (k (result m)).
Proof.
  unfold bind, events, result.
  destruct m as [t1 a]; cbn. destruct (k a); reflexivity.
Qed.

(** ** EGL set-up and tear-down *)

(** C4.  Whichever step of [init_egl] fails, the function returns -1, the
    resources it gives back are exactly the ones it had acquired, in the
    reverse of the order it acquired them in, each by the handle the
    acquiring call returned and the context on the display it was created
    on, and nothing is acquired once the unwinding has begun. *)
Theorem init_egl_failure_unwinds (w : egl_world) (conv : converter)
    (render_node : string) :
  fst (result (init_egl w conv render_node)) <> 0 ->
  fst (result (init_egl w conv render_node)) = -1 /\
  released (events (init_egl w conv render_node))
  = rev (acquired (events (init_egl w conv render_node))) /\
  (forall r,
      In r (released (events (init_egl w conv render_node))) ->
      r = R_fd (Some (open_res w)) \/
      r = R_gbm (Some (gbm_create_device_res w)) \/
      r = R_dpy (Some (eglGetPlatformDisplay_res w)) \/
      r = R_ctx (Some (eglGetPlatformDisplay_res w))
            (Some (eglCreateContext_res w))) /\
  exists t1 t2,
    events (init_egl w conv render_node) = t1 ++ t2 /\
    released t1 = [] /\ acquired t2 = [].
Proof.
  unfold init_egl, unwind, err_egl_make_current, err_egl_ctx, err_egl_dpy,
    err_gbm, released, acquired, events, result.
  paths.
  all: intros H; try (exfalso; apply H; reflexivity).
  all: split; [reflexivity | split; [reflexivity |]].
  all: split;
    [intros r Hin; cbn in Hin;
     repeat (destruct Hin as [<- | Hin]; [auto 6 |]); contradiction
    | split_trace].
Qed.

Lemma init_egl_failure_unwinds_witness :
  fst (result (init_egl egl_refusing_current (cvt_declared SHADER_FNAME)
                 RENDER_NODE_FNAME)) <> 0 /\
  fst (result (init_egl egl_refusing_current (cvt_declared SHADER_FNAME)
                 RENDER_NODE_FNAME)) = -1 /\
  released (events (init_egl egl_refusing_current (cvt_declared SHADER_FNAME)
                      RENDER_NODE_FNAME))
  = [R_ctx (Some 3002) (Some 3004); R_dpy (Some 3002); R_gbm (Some 3001);
     R_fd (Some 3)].
Proof.
  assert (H : fst (result (init_egl egl_refusing_current
                             (cvt_declared SHADER_FNAME) RENDER_NODE_FNAME))
              <> 0) by (vm_compute; discriminate).
  split; [exact H |].
  destruct (init_egl_failure_unwinds _ _ _ H) as [Hret [Hrel _]].
  split; [exact Hret |].
  rewrite Hrel. reflexivity.
Defined.

(** On success [init_egl] has acquired the four resources, in the order
    descriptor, GBM device, display, context, has released none, and has
    stored each handle in the context. *)
Lemma init_egl_success (w : egl_world) (conv0 conv : converter)
    (render_node : string) :
  result (init_egl w conv0 render_node) = (0, conv) ->
  acquired (events (init_egl w conv0 render_node))
  = [R_fd (fd conv); R_gbm (gbm conv); R_dpy (egl_dpy conv);
     R_ctx (egl_dpy conv) (core_ctx conv)] /\
  released (events (init_egl w conv0 render_node)) = [].
Proof.
  unfold init_egl, unwind, err_egl_make_current, err_egl_ctx, err_egl_dpy,
    err_gbm, released, acquired, events, result.
  paths.
  all: intros H; try discriminate H.
  all: injection H as <-; split; reflexivity.
Qed.

(** The handles a successful [init_egl] stores in the context are the ones
    the calls returned. *)
Lemma init_egl_handles (w : egl_world) (conv : converter)
    (render_node : string) :
  fst (result (init_egl w conv render_node)) = 0 ->
  fd (snd (result (init_egl w conv render_node))) = Some (open_res w) /\
  gbm (snd (result (init_egl w conv render_node)))
  = Some (gbm_create_device_res w) /\
  egl_dpy (snd (result (init_egl w conv render_node)))
  = Some (eglGetPlatformDisplay_res w) /\
  core_ctx (snd (result (init_egl w conv render_node)))
  = Some (eglCreateContext_res w).
Proof.
  unfold init_egl, unwind, err_egl_make_current, err_egl_ctx, err_egl_dpy,
    err_gbm, result.
  paths. all: intros H; try discriminate H. all: repeat split.
Qed.

(** C8.  After a successful [init_egl], [deinit_egl] destroys the context,
    then terminates the display, then destroys the GBM device, then closes
    the descriptor: the reverse of the order [init_egl] acquired them in. *)
Theorem deinit_egl_reverses_init_egl (w : egl_world) (conv0 conv : converter)
    (render_node : string) :
  result (init_egl w conv0 render_node) = (0, conv) ->
  events (deinit_egl conv)
  = [E_eglDestroyContext (egl_dpy conv) (core_ctx conv);
     E_eglTerminate (egl_dpy conv);
     E_gbm_device_destroy (gbm conv);
     E_close (fd conv)] /\
  released (events (deinit_egl conv))
  = rev (acquired (events (init_egl w conv0 render_node))).
Proof.
  intros H. apply init_egl_success in H as [Hacq _].
  rewrite Hacq. split; reflexivity.
Qed.

Lemma deinit_egl_reverses_init_egl_witness :
  result (init_egl sample_egl (cvt_declared SHADER_FNAME) RENDER_NODE_FNAME)
  = (0, set_core_ctx (set_egl_dpy (set_gbm (set_fd (cvt_declared SHADER_FNAME)
                                              3) 3001) 3002) 3004) /\
  acquired (events (init_egl sample_egl (cvt_declared SHADER_FNAME)
                      RENDER_NODE_FNAME))
  = [R_fd (Some 3); R_gbm (Some 3001); R_dpy (Some 3002);
     R_ctx (Some 3002) (Some 3004)] /\
  events (deinit_egl (set_core_ctx (set_egl_dpy (set_gbm (set_fd
            (cvt_declared SHADER_FNAME) 3) 3001) 3002) 3004))
  = [E_eglDestroyContext (Some 3002) (Some 3004);
     E_eglTerminate (Some 3002);
     E_gbm_device_destroy (Some 3001);
     E_close (Some 3)].
Proof.
  assert (H : result (init_egl sample_egl (cvt_declared SHADER_FNAME)
                        RENDER_NODE_FNAME)
              = (0, set_core_ctx (set_egl_dpy (set_gbm (set_fd
                       (cvt_declared SHADER_FNAME) 3) 3001) 3002) 3004))
    by (vm_compute; reflexivity).
  split; [exact H |].
  split; [vm_compute; reflexivity |].
  exact (proj1 (deinit_egl_reverses_init_egl _ _ _ _ H)).
Defined.

(** ** File helpers *)



(** ** The option loop ends *)

Lemma elements_budget_cons (a : string) (rest : list string) :
  elements_budget (a :: rest)
  = S (String.length a + elements_budget rest).
Proof. reflexivity. Qed.

Lemma advance_budget (posix : bool) (rest skipped : list string)
    (c : ascii) (cl : string) (rest' skipped' : list string) :
  advance posix rest skipped = OptionElement c cl rest' skipped' ->
  (String.length cl + elements_budget rest' + 3 <= elements_budget rest)%nat.
Proof.
  revert skipped.
  induction rest as [| a rest IH]; intros skipped H; [discriminate H |].
  cbn [advance] in H. rewrite elements_budget_cons.
  destruct a as [| d [| c0 cl0]].
  - destruct posix; [discriminate H |]. apply IH in H. lia.
  - destruct posix; [discriminate H |]. apply IH in H. lia.
  - destruct (Ascii.eqb d "-").
    + destruct (Ascii.eqb c0 "-" && String.eqb cl0 EmptyString); [discriminate H |].
      injection H as <- <- <- <-. cbn [String.length]. lia.
    + destruct posix; [discriminate H |]. apply IH in H. lia.
Qed.

Lemma char_code_nonneg (c : ascii) : 0 <= char_code c.
Proof. unfold char_code. lia. Qed.

Lemma take_option_budget (optstring : string) (c : ascii) (cl : string)
    (elems passed : list string) (r : Z) (optarg : option string)
    (st' : getopt_state) :
  take_option optstring c cl elems passed = (r, optarg, st') ->
  r <> -1 /\
  (getopt_budget st' <= String.length cl + elements_budget elems)%nat.
Proof.
  pose proof (char_code_nonneg c) as Hc.
  pose proof (char_code_nonneg "?") as Hq.
  unfold take_option, getopt_budget.
  destruct (Ascii.eqb c ":").
  - intros H; injection H as <- <- <-.
    cbn [cluster rest]. split; lia.
  - destruct (lookup_option optstring c) as [[|] |].
    + destruct cl as [| c1 cl1]; [destruct elems as [| a elems'] |].
      all: intros H; injection H as <- <- <-.
      all: cbn [cluster rest String.length].
      all: rewrite ?elements_budget_cons.
      all: split; lia.
    + intros H; injection H as <- <- <-.
      cbn [cluster rest]. split; lia.
    + intros H; injection H as <- <- <-.
      cbn [cluster rest]. split; lia.
Qed.

(** A call of [getopt] that reports an option uses up some of the budget. *)
Lemma getopt_budget_decreases (posix : bool) (optstring : string)
    (st st' : getopt_state) (r : Z) (optarg : option string) :
  getopt posix optstring st = (r, optarg, st') ->
  r <> -1 ->
  (getopt_budget st' < getopt_budget st)%nat.
Proof.
  unfold getopt. destruct st as [cl elems passed].
  unfold getopt_budget at 2.
  cbn [cluster rest skipped].
  destruct cl as [| c cl].
  - destruct (advance posix elems passed) as [c cl elems' passed' |] eqn:Hadv.
    + intros H _. apply take_option_budget in H as [_ H].
      apply advance_budget in Hadv. cbn [String.length]. lia.
    + intros H Hr. injection H as <- _ _. contradiction.
  - intros H _. apply take_option_budget in H as [_ H].
    cbn [String.length]. lia.
Qed.

Lemma process_options_terminates (fuel : nat) (posix : bool) (argv0 : string)
    (st : getopt_state) (b_ord : Z) :
  (getopt_budget st < fuel)%nat ->
  exists r, process_options fuel posix argv0 st b_ord = Some r.
Proof.
  revert st b_ord.
  induction fuel as [| fuel IH]; intros st b_ord Hfuel; [lia |].
  cbn [process_options].
  destruct (getopt posix "f:h" st) as [[c optarg] st'] eqn:Hget.
  destruct (c =? -1) eqn:Hend; [eexists; reflexivity |].
  apply Z.eqb_neq in Hend.
  pose proof (getopt_budget_decreases _ _ _ _ _ _ Hget Hend) as Hdec.
  destruct (c =? char_code "f").
  - cbn. eexists; reflexivity.
  - destruct (c =? char_code "h"); [eexists; reflexivity |].
    apply IH. lia.
Qed.

(** Every run of [main] ends: the budget given to the option loop always
    suffices. *)
Lemma main_terminates (w : world) (argv0 : string) (args : list string) :
  exists r, main w argv0 args = Some r.
Proof.
  unfold main.
  destruct (process_options_terminates
              (S (getopt_budget (getopt_start args))) (posixly_correct w)
              argv0 (getopt_start args) (-1)) as [r Hr]; [lia |].
  rewrite Hr. eexists; reflexivity.
Qed.

(** ** The command line *)

Lemma lookup_option_fh (c : ascii) (b : bool) :
  lookup_option "f:h" c = Some b ->
  c = "f"%char \/ c = ":"%char \/ c = "h"%char.
Proof.
  cbn [lookup_option].
  destruct (Ascii.eqb "f" c) eqn:Hf; [apply Ascii.eqb_eq in Hf; auto |].
  destruct (Ascii.eqb ":" c) eqn:Hc; [apply Ascii.eqb_eq in Hc; auto |].
  destruct (Ascii.eqb "h" c) eqn:Hh; [apply Ascii.eqb_eq in Hh; auto |].
  discriminate.
Qed.

(** With the option string "f:h", [getopt] returns -1, '?', 'f' or 'h'. *)
Lemma getopt_codes_fh (posix : bool) (st : getopt_state) :
  let c := fst (fst (getopt posix "f:h" st)) in
  c = -1 \/ c = char_code "?" \/ c = char_code "f" \/ c = char_code "h".
Proof.
  assert (Htake : forall c cl elems passed,
             let r := fst (fst (take_option "f:h" c cl elems passed)) in
             r = char_code "?" \/ r = char_code "f" \/ r = char_code "h").
  { intros c cl elems passed. unfold take_option.
    destruct (Ascii.eqb c ":") eqn:Hcolon; [left; reflexivity |].
    destruct (lookup_option "f:h" c) as [b |] eqn:Hlook;
      [| left; reflexivity].
    apply lookup_option_fh in Hlook as [-> | [-> | ->]];
      [| discriminate Hcolon |].
    all: destruct b; [destruct cl; [destruct elems |] |]; cbn; auto. }
  unfold getopt.
  destruct (cluster st) as [| c cl].
  - destruct (advance posix (rest st) (skipped st)); [| left; reflexivity].
    right. apply Htake.
  - right. apply Htake.
Qed.

Lemma process_options_help (fuel : nat) (posix : bool) (argv0 : string)
    (st : getopt_state) (b_ord : Z) (pre post : list Z) :
  getopt_codes fuel posix "f:h" st = pre ++ char_code "h" :: post ->
  ~ In (char_code "f") pre ->
  process_options fuel posix argv0 st b_ord
  = Some ([E_printf USAGE [PStr argv0]], Return 0).
Proof.
  revert st b_ord pre.
  induction fuel as [| fuel IH]; intros st b_ord pre Hcodes Hpre.
  - destruct pre; discriminate Hcodes.
  - cbn [getopt_codes process_options] in *.
    destruct (getopt posix "f:h" st) as [[c optarg] st'].
    destruct (c =? -1) eqn:Hend; [destruct pre; discriminate Hcodes |].
    destruct pre as [| c0 pre].
    + injection Hcodes as -> _. reflexivity.
    + injection Hcodes as -> Hcodes.
      destruct (c0 =? char_code "f") eqn:Hf.
      * apply Z.eqb_eq in Hf. exfalso. apply Hpre. left. exact Hf.
      * destruct (c0 =? char_code "h"); [reflexivity |].
        apply (IH _ _ pre); [exact Hcodes |].
        intros Hin. apply Hpre. right. exact Hin.
Qed.

(** C5, amended.  When [getopt] reports -h and has reported no -f before
    it, the program prints the usage text and returns 0, whatever else the
    argument vector holds. *)
Theorem help_before_format_prints_usage (w : world) (argv0 : string)
    (args : list string) (pre post : list Z) :
  reported_options (posixly_correct w) args
  = pre ++ char_code "h" :: post ->
  ~ In (char_code "f") pre ->
  main w argv0 args = Some ([E_printf USAGE [PStr argv0]], Returned 0).
Proof.
  unfold reported_options, main. intros Hcodes Hpre.
  rewrite (process_options_help _ _ argv0 _ (-1) _ _ Hcodes Hpre).
  reflexivity.
Qed.

Lemma help_before_format_prints_usage_witness :
  reported_options false ["-x"; "in.raw"; "-h"; "-f"; "RGGB"]
  = [char_code "?"] ++ char_code "h" :: [char_code "f"] /\
  ~ In (char_code "f") [char_code "?"] /\
  main sample_world "debayer" ["-x"; "in.raw"; "-h"; "-f"; "RGGB"]
  = Some ([E_printf USAGE [PStr "debayer"]], Returned 0).
Proof.
  assert (Hcodes : reported_options (posixly_correct sample_world)
                     ["-x"; "in.raw"; "-h"; "-f"; "RGGB"]
                   = [char_code "?"] ++ char_code "h" :: [char_code "f"])
    by (vm_compute; reflexivity).
  assert (Hpre : ~ In (char_code "f") [char_code "?"])
    by (intros [H | []]; vm_compute in H; discriminate H).
  split; [exact Hcodes |].
  split; [exact Hpre |].
  exact (help_before_format_prints_usage sample_world "debayer" _ _ _
           Hcodes Hpre).
Defined.

(** C5 as stated fails: with -f ahead of -h the run ends in the complaint
    about the bayer order and the status -1, and prints no usage text. *)
Lemma help_after_format_is_rejected :
  In "-h" ["-f"; "RGGB"; "-h"] /\
  main sample_world "debayer" ["-f"; "RGGB"; "-h"]
  = Some ([E_printf "bad bayer order\n" []], Returned (-1)) /\
  main sample_world "debayer" ["-f"; "RGGB"; "-h"]
  <> Some ([E_printf USAGE [PStr "debayer"]], Returned 0).
Proof.
  split; [cbn; auto |].
  split; [vm_compute; reflexivity | vm_compute; discriminate].
Qed.

(** C6.  [parse_bayer_order] returns a negative value for every argument,
    so a run whose first option reported by [getopt] is -f prints "bad bayer
    order", returns -1, and neither opens nor writes an output file. *)
Theorem format_flag_always_fails (w : world) (argv0 : string)
    (args : list string) (p : option string) (bo : Z) :
  fst (fst (getopt (posixly_correct w) "f:h" (getopt_start args)))
  = char_code "f" ->
  fst (parse_bayer_order p bo) < 0 /\
  main w argv0 args
  = Some ([E_printf "bad bayer order\n" []], Returned (-1)) /\
  writes_output [E_printf "bad bayer order\n" []] = false.
Proof.
  intros Hf. split; [cbn; lia |]. split; [| reflexivity].
  unfold main. cbn [process_options].
  destruct (getopt (posixly_correct w) "f:h" (getopt_start args))
    as [[c optarg] st'].
  cbn [fst] in Hf. subst c. reflexivity.
Qed.

Lemma format_flag_always_fails_witness :
  fst (fst (getopt false "f:h"
              (getopt_start ["-f"; "RGGB"; "in.raw"; "out.rgba"])))
  = char_code "f" /\
  fst (parse_bayer_order (Some "RGGB") (-1)) < 0 /\
  main sample_world "debayer" ["-f"; "RGGB"; "in.raw"; "out.rgba"]
  = Some ([E_printf "bad bayer order\n" []], Returned (-1)).
Proof.
  assert (Hf : fst (fst (getopt (posixly_correct sample_world) "f:h"
                           (getopt_start ["-f"; "RGGB"; "in.raw"; "out.rgba"])))
               = char_code "f") by (vm_compute; reflexivity).
  split; [exact Hf |].
  destruct (format_flag_always_fails sample_world "debayer" _
              (Some "RGGB") (-1) Hf) as (Hneg & Hrun & _).
  split; [exact Hneg | exact Hrun].
Defined.

(** ** The phases of [main] *)

Lemma setup_only_app (t1 t2 : trace) :
  setup_only (t1 ++ t2) = setup_only t1 && setup_only t2.
Proof. apply forallb_app. Qed.

Lemma setup_only_In (t : trace) (e : event) :
  setup_only t = true -> In e t -> conversion_event e = false.
Proof.
  unfold setup_only. rewrite forallb_forall. intros H Hin.
  apply H in Hin. apply negb_true_iff in Hin. exact Hin.
Qed.

Lemma read_input_file_setup_only (fs : file_system) (fname type : string) :
  String.eqb type "wb" = false ->
  setup_only (events (read_input_file fs fname type)) = true.
Proof.
  intros Hmode. unfold read_input_file, setup_only, events.
  paths; rewrite ?Hmode; reflexivity.
Qed.

Lemma init_egl_setup_only (w : egl_world) (conv : converter)
    (render_node : string) :
  setup_only (events (init_egl w conv render_node)) = true.
Proof.
  unfold init_egl, unwind, err_egl_make_current, err_egl_ctx, err_egl_dpy,
    err_gbm, setup_only, events.
  paths; reflexivity.
Qed.

Lemma init_shader_setup_only (fs : file_system) (w : shader_world)
    (conv : converter) :
  setup_only (events (init_shader fs w conv)) = true.
Proof.
  unfold init_shader, read_input_text_file, read_input_file, err_del_program,
    err_del_shader, setup_only, events.
  paths; reflexivity.
Qed.

(** A successful read: the seven calls it makes and what it returns. *)
Lemma read_input_file_success (fs : file_system) (fname type : string)
    (size : Z) (data : var) :
  result (read_input_file fs fname type) = (size, data) ->
  0 < size ->
  size = ftell_res (fs fname type) /\
  data = Some (malloc_res (fs fname type)) /\
  events (read_input_file fs fname type)
  = [E_fopen fname type (fopen_res (fs fname type));
     E_fseek (fopen_res (fs fname type)) 0 SEEK_END;
     E_ftell (fopen_res (fs fname type)) size;
     E_fseek (fopen_res (fs fname type)) 0 SEEK_SET;
     E_malloc size (malloc_res (fs fname type));
     E_fread (malloc_res (fs fname type)) 1 size (fopen_res (fs fname type))
       size;
     E_fclose (fopen_res (fs fname type)) (fclose_res (fs fname type))].
Proof.
  unfold read_input_file, events, result.
  paths; intros H Hpos; injection H as <- <-; try lia.
  bools.
  match goal with H : fread_res _ = _ |- _ => rewrite H end.
  repeat split; reflexivity.
Qed.

(** The option loop prints nothing unless it ends the run. *)
Lemma process_options_shape (fuel : nat) (posix : bool) (argv0 : string)
    (st : getopt_state) (b_ord : Z) (r : Run loop_exit) :
  process_options fuel posix argv0 st b_ord = Some r ->
  (exists st' b, r = ([], Break st' b)) \/
  r = ([E_printf "bad bayer order\n" []], Return (-1)) \/
  r = ([E_printf USAGE [PStr argv0]], Return 0).
Proof.
  revert st b_ord.
  induction fuel as [| fuel IH]; intros st b_ord H; [discriminate H |].
  cbn [process_options] in H.
  destruct (getopt posix "f:h" st) as [[c optarg] st'].
  destruct (c =? -1).
  - injection H as <-. left. eexists _, _. reflexivity.
  - destruct (c =? char_code "f").
    + cbn in H. injection H as <-. right; left. reflexivity.
    + destruct (c =? char_code "h").
      * injection H as <-. right; right. reflexivity.
      * apply IH in H. exact H.
Qed.

Lemma main_after_options_cases (w : world) (st : getopt_state) (t : trace)
    (o : outcome) :
  main_after_options w st = (t, o) ->
  setup_only t = true \/
  exists infile outfile size p cvt t0,
    result (read_input_bin_file (files w) infile) = (size, Some p) /\
    0 < size /\
    setup_only t0 = true /\
    t = events (read_input_bin_file (files w) infile) ++ t0
        ++ events (convert w cvt (Some p) size (to_long (4 * size)) outfile) /\
    o = Returned
          (result (convert w cvt (Some p) size (to_long (4 * size)) outfile)).
Proof.
  unfold main_after_options.
  destruct (positional st) as [| infile [| outfile [| extra more]]].
  1, 2, 4: intros H; injection H as <- <-; left; reflexivity.
  pose proof (read_input_file_setup_only (files w) infile "rb" eq_refl)
    as Hq_rd.
  pose proof (init_egl_setup_only (egl w) (cvt_declared SHADER_FNAME)
                RENDER_NODE_FNAME) as Hq_egl.
  fold (read_input_bin_file (files w) infile) in Hq_rd.
  unfold bind, events in *.
  destruct (read_input_bin_file (files w) infile) as [t_rd [size data]] eqn:Hrd.
  cbn [fst snd] in *.
  destruct (size <=? 0) eqn:Hsize.
  { intros H; injection H as <- <-. left.
    rewrite setup_only_app, Hq_rd. reflexivity. }
  destruct (init_egl (egl w) (cvt_declared SHADER_FNAME) RENDER_NODE_FNAME)
    as [t_egl [r_egl cvt1]].
  cbn [fst snd] in *.
  destruct (negb (r_egl =? 0)).
  { intros H; injection H as <- <-. left.
    rewrite !setup_only_app, Hq_rd, Hq_egl. reflexivity. }
  pose proof (init_shader_setup_only (files w) (shader w) cvt1) as Hq_sh.
  unfold events in Hq_sh.
  destruct (init_shader (files w) (shader w) cvt1) as [t_sh [r_sh cvt2]].
  cbn [fst snd] in *.
  destruct (negb (r_sh =? 0)).
  { intros H; injection H as <- <-. left.
    rewrite !setup_only_app, Hq_rd, Hq_egl, Hq_sh. reflexivity. }
  apply Z.leb_gt in Hsize.
  assert (Hres : result (read_input_bin_file (files w) infile) = (size, data))
    by (rewrite Hrd; reflexivity).
  destruct (read_input_file_success _ _ _ _ _ Hres Hsize) as (_ & -> & _).
  destruct (convert w cvt2 (Some (malloc_res (files w infile "rb"))) size
              (to_long (4 * size)) outfile) as [t_cv r_cv] eqn:Hcv.
  intros H; injection H as <- <-. right.
  exists infile, outfile, size, (malloc_res (files w infile "rb")), cvt2,
    (t_egl ++ t_sh).
  rewrite Hrd, Hcv. cbn [result events fst snd].
  repeat split; try assumption.
  - rewrite setup_only_app, Hq_egl, Hq_sh. reflexivity.
  - rewrite app_nil_r, <- !app_assoc. reflexivity.
Qed.

(** Every run either ends before the conversion starts, having made none of
    the conversion's calls, or reads the input in full, sets EGL and the
    shader up and then runs [convert] on four times the size it read. *)
Lemma main_cases (w : world) (argv0 : string) (args : list string)
    (t : trace) (o : outcome) :
  main w argv0 args = Some (t, o) ->
  setup_only t = true \/
  exists infile outfile size p cvt t0,
    result (read_input_bin_file (files w) infile) = (size, Some p) /\
    0 < size /\
    setup_only t0 = true /\
    t = events (read_input_bin_file (files w) infile) ++ t0
        ++ events (convert w cvt (Some p) size (to_long (4 * size)) outfile) /\
    o = Returned
          (result (convert w cvt (Some p) size (to_long (4 * size)) outfile)).
Proof.
  unfold main.
  destruct (process_options _ _ _ _ _) as [opts |] eqn:Hopts;
    [| discriminate].
  apply process_options_shape in Hopts as [(st' & b & ->) | [-> | ->]].
  - cbn [bind app]. destruct (main_after_options w st') as [t' o'] eqn:Hrun.
    intros H; injection H as <- <-.
    apply (main_after_options_cases w st'). exact Hrun.
  - intros H; injection H as <- <-. left. reflexivity.
  - intros H; injection H as <- <-. left. reflexivity.
Qed.

(** ** The conversion *)


Lemma to_int_small (z : Z) : - 2 ^ 31 <= z <= INT_MAX -> to_int z = z.
Proof.
  unfold INT_MAX. intros H. unfold to_int, wrap_signed.
  change (2 ^ (32 - 1)) with (2 ^ 31). change (2 ^ 32) with (2 * 2 ^ 31).
  rewrite Z.mod_small; lia.
Qed.



(** A conversion call that a run of [main] makes is made by [convert], which
    the run enters after a prefix free of such calls, and whose result it
    returns. *)
Lemma main_conversion (w : world) (argv0 : string) (args : list string)
    (t : trace) (o : outcome) (e : event) :
  main w argv0 args = Some (t, o) ->
  In e t ->
  conversion_event e = true ->
  exists cvt p size outfile t1 tc rc,
    convert w cvt (Some p) size (to_long (4 * size)) outfile = (tc, rc) /\
    t = t1 ++ tc /\
    setup_only t1 = true /\
    o = Returned rc.
Proof.
  intros Hmain Hin He.
  apply main_cases in Hmain as [Hsetup | Hconv].
  { apply (setup_only_In _ _ Hsetup) in Hin. congruence. }
  destruct Hconv as (infile & outfile & size & p & cvt & t0 & _ & _
                     & Hsetup & Ht & Ho).
  destruct (convert w cvt (Some p) size (to_long (4 * size)) outfile)
    as [tc rc] eqn:Hrun.
  exists cvt, p, size, outfile,
    (events (read_input_bin_file (files w) infile) ++ t0), tc, rc.
  split; [exact Hrun |].
  split; [rewrite <- app_assoc; exact Ht |].
  split; [| exact Ho].
  rewrite setup_only_app, Hsetup.
  unfold read_input_bin_file.
  rewrite read_input_file_setup_only; reflexivity.
Qed.

Lemma setup_only_not_In (t1 tc : trace) (e : event) :
  setup_only t1 = true ->
  In e (t1 ++ tc) ->
  conversion_event e = true ->
  In e tc.
Proof.
  intros Hsetup Hin He. apply in_app_or in Hin as [Hin | Hin]; [| exact Hin].
  apply (setup_only_In _ _ Hsetup) in Hin. congruence.
Qed.

Lemma setup_only_count (f : event -> bool) (t1 tc : trace) :
  setup_only t1 = true ->
  (forall e, f e = true -> conversion_event e = true) ->
  count_events f (t1 ++ tc) = count_events f tc.
Proof.
  intros Hsetup Hf. unfold count_events.
  rewrite filter_app, List.length_app.
  replace (filter f t1) with (@nil event); [reflexivity |].
  symmetry. induction t1 as [| e t1 IH]; [reflexivity |].
  cbn in Hsetup. apply andb_true_iff in Hsetup as [He Ht1].
  cbn. destruct (f e) eqn:Hfe.
  - apply Hf in Hfe. rewrite Hfe in He. discriminate He.
  - apply IH. exact Ht1.
Qed.

(** The dispatch and the wait of [convert]: the grid and the timeout are
    fixed, the wait is issued exactly once, and a run that enters the loop
    executes its body exactly once. *)
Lemma convert_dispatch (w : world) (cvt : converter) (p_data_in : var)
    (data_in_size data_out_size : Z) (outfile : string) (t : trace) (r : Z) :
  convert w cvt p_data_in data_in_size data_out_size outfile = (t, r) ->
  (forall x y z, In (E_glDispatchCompute x y z) t ->
                 x = WG_NUM_X /\ y = WG_NUM_Y /\ z = 1) /\
  (forall s fl tm, In (E_glClientWaitSync s fl tm) t ->
                   fl = GL_SYNC_FLUSH_COMMANDS_BIT /\ tm = fence_timeout) /\
  (forall e, is_fence_wait e = true -> In e t ->
             count_events is_fence_wait t = 1%nat /\
             count_events is_use_program t = 1%nat).
Proof.
  convert_paths.
  all: split; [intros x y z Hin; members Hin; repeat split |].
  all: split; [intros s fl tm Hin; members Hin; repeat split |].
  all: intros e He Hin; members Hin; try discriminate He.
  all: split; reflexivity.
Qed.

(** The fence [convert] waits on.  When glUseProgram or glDispatchCompute
    reports an error the loop is left before glFenceSync is reached, and the
    wait is given the fence variable as it was declared. *)
Lemma convert_fence (w : world) (cvt : converter) (p_data_in : var)
    (data_in_size data_out_size : Z) (outfile : string) (t : trace) (r : Z)
    (s : var) (fl : glenum) (tm : Z) :
  convert w cvt p_data_in data_in_size data_out_size outfile = (t, r) ->
  In (E_glClientWaitSync s fl tm) t ->
  (err_use_program (gl w) = GL_NO_ERROR ->
   err_dispatch (gl w) = GL_NO_ERROR ->
   s = Some (glFenceSync_res (gl w)) /\
   In (E_glFenceSync GL_SYNC_GPU_COMMANDS_COMPLETE 0 (glFenceSync_res (gl w)))
     t) /\
  (err_use_program (gl w) <> GL_NO_ERROR \/
   err_dispatch (gl w) <> GL_NO_ERROR ->
   s = None /\ forall c f h, ~ In (E_glFenceSync c f h) t).
Proof.
  convert_paths.
  all: intros Hin; members Hin; bools.
  all: split;
    [intros Huse Hdisp; try contradiction; (split; [reflexivity | present])
    | intros [Huse | Hdisp]; try contradiction;
      (split; [reflexivity | intros c f h Hf; members Hf])].
Qed.

Lemma setup_only_writes (t : trace) :
  setup_only t = true -> writes_output t = false.
Proof.
  unfold setup_only, writes_output.
  induction t as [| e t IH]; [reflexivity |].
  cbn [forallb existsb]. intros H. apply andb_true_iff in H as [He Ht].
  rewrite (IH Ht), orb_false_r.
  destruct e; try reflexivity; cbn in He |- *.
  - apply negb_true_iff in He. exact He.
  - discriminate He.
Qed.

(** A run of [convert] whose mapping comes back NULL opens and writes no
    file, ends with the teardown, and returns the error variable: what
    glGetError() answered after the dispatch when the program object could
    be used, and the GL_NO_ERROR left by the last buffer check otherwise. *)
Lemma convert_unmapped (w : world) (cvt : converter) (p_data_in : var)
    (data_in_size data_out_size : Z) (outfile : string) (t : trace) (r : Z)
    (tgt acc : glenum) (off len : Z) :
  convert w cvt p_data_in data_in_size data_out_size outfile = (t, r) ->
  In (E_glMapBufferRange tgt off len acc NULL) t ->
  writes_output t = false /\
  (exists t1, t = t1 ++ teardown (set_bos cvt (glGenBuffers_res (gl w)))
                         p_data_in) /\
  (err_use_program (gl w) = GL_NO_ERROR ->
   r = to_int (err_dispatch (gl w))) /\
  (err_use_program (gl w) <> GL_NO_ERROR -> r = 0).
Proof.
  convert_paths.
  all: intros Hin; members Hin; bools; try congruence.
  all: split; [reflexivity |].
  all: split;
    [unfold teardown;
     lazymatch goal with
     | |- exists t1, ?l = _ =>
         let n := eval cbv in (List.length l - 7)%nat in
         let t := eval cbn in (firstn n l) in
         exists t; reflexivity
     end |].
  all: split; intros Huse; try contradiction; try reflexivity.
  all: match goal with H : _ = GL_NO_ERROR |- _ => rewrite H end;
    reflexivity.
Qed.

(** ** The dispatch, the fence and the exit status *)

(** C2: what the code does where the claim fails.  In a run that reaches the
    dispatch phase the loop body is entered exactly once; but when
    glUseProgram or glDispatchCompute reports an error the body is left
    before glFenceSync, no fence is ever created, and glClientWaitSync is
    handed the fence variable unassigned. *)
Theorem early_break_waits_on_unset_fence (w : world) (argv0 : string)
    (args : list string) (t : trace) (o : outcome) (s : var) (fl : glenum)
    (tm : Z) :
  main w argv0 args = Some (t, o) ->
  In (E_glClientWaitSync s fl tm) t ->
  err_use_program (gl w) <> GL_NO_ERROR \/
  err_dispatch (gl w) <> GL_NO_ERROR ->
  count_events is_use_program t = 1%nat /\
  s = None /\
  ~ dispatch_ok t.
Proof.
  intros Hmain Hin Herr.
  destruct (main_conversion _ _ _ _ _ _ Hmain Hin eq_refl)
    as (cvt & p & size & outfile & t1 & tc & rc & Hrun & -> & Hsetup & _).
  apply (setup_only_not_In _ _ _ Hsetup) in Hin; [| reflexivity].
  destruct (convert_dispatch _ _ _ _ _ _ _ _ Hrun) as (_ & _ & Hcount).
  destruct (convert_fence _ _ _ _ _ _ _ _ _ _ _ Hrun Hin) as [_ Hunset].
  destruct (Hunset Herr) as [Hs Hnone].
  split.
  - rewrite setup_only_count; [| exact Hsetup |].
    + apply (Hcount (E_glClientWaitSync s fl tm) eq_refl Hin).
    + intros [] He; try discriminate He; reflexivity.
  - split; [exact Hs |].
    intros [h Hf].
    apply (setup_only_not_In _ _ _ Hsetup) in Hf; [| reflexivity].
    exact (Hnone _ _ _ Hf).
Qed.

Lemma early_break_waits_on_unset_fence_witness :
  main unusable_program_world "debayer" ["in.raw"; "out.rgba"]
  = Some (unusable_program_trace, Returned 0) /\
  In (E_glClientWaitSync None GL_SYNC_FLUSH_COMMANDS_BIT fence_timeout)
    unusable_program_trace /\
  count_events is_use_program unusable_program_trace = 1%nat /\
  ~ dispatch_ok unusable_program_trace.
Proof.
  assert (Hmain : main unusable_program_world "debayer" ["in.raw"; "out.rgba"]
                  = Some (unusable_program_trace, Returned 0))
    by (vm_compute; reflexivity).
  assert (Hin : In (E_glClientWaitSync None GL_SYNC_FLUSH_COMMANDS_BIT
                      fence_timeout) unusable_program_trace)
    by (unfold unusable_program_trace; present).
  assert (Herr : err_use_program (gl unusable_program_world) <> GL_NO_ERROR \/
                 err_dispatch (gl unusable_program_world) <> GL_NO_ERROR)
    by (left; vm_compute; discriminate).
  destruct (early_break_waits_on_unset_fence _ _ _ _ _ _ _ _ Hmain Hin Herr)
    as (Hcount & _ & Hnofence).
  repeat (split; [assumption |]). exact Hnofence.
Defined.

(** The part of C2 that holds: when neither call reports an error, the wait
    is given the fence glFenceSync created in the one iteration. *)
Lemma clean_dispatch_waits_on_its_fence (w : world) (argv0 : string)
    (args : list string) (t : trace) (o : outcome) (s : var) (fl : glenum)
    (tm : Z) :
  main w argv0 args = Some (t, o) ->
  In (E_glClientWaitSync s fl tm) t ->
  err_use_program (gl w) = GL_NO_ERROR ->
  err_dispatch (gl w) = GL_NO_ERROR ->
  count_events is_use_program t = 1%nat /\
  s = Some (glFenceSync_res (gl w)) /\
  In (E_glFenceSync GL_SYNC_GPU_COMMANDS_COMPLETE 0 (glFenceSync_res (gl w))) t.
Proof.
  intros Hmain Hin Huse Hdisp.
  destruct (main_conversion _ _ _ _ _ _ Hmain Hin eq_refl)
    as (cvt & p & size & outfile & t1 & tc & rc & Hrun & -> & Hsetup & _).
  apply (setup_only_not_In _ _ _ Hsetup) in Hin; [| reflexivity].
  destruct (convert_dispatch _ _ _ _ _ _ _ _ Hrun) as (_ & _ & Hcount).
  destruct (convert_fence _ _ _ _ _ _ _ _ _ _ _ Hrun Hin) as [Hset _].
  destruct (Hset Huse Hdisp) as [Hs Hf].
  split.
  - rewrite setup_only_count; [| exact Hsetup |].
    + apply (Hcount (E_glClientWaitSync s fl tm) eq_refl Hin).
    + intros [] He; try discriminate He; reflexivity.
  - split; [exact Hs |]. apply in_or_app. right. exact Hf.
Qed.

(** C3: what the code does where the claim fails.  The one wait on the
    fence asks for a flush and is given the timeout 100 * 1000; the unit
    being the nanosecond, that is 100 microseconds, a thousandth of the 100
    milliseconds the comment next to it announces. *)
Theorem fence_wait_timeout (w : world) (argv0 : string) (args : list string)
    (t : trace) (o : outcome) (s : var) (fl : glenum) (tm : Z) :
  main w argv0 args = Some (t, o) ->
  In (E_glClientWaitSync s fl tm) t ->
  count_events is_fence_wait t = 1%nat /\
  fl = GL_SYNC_FLUSH_COMMANDS_BIT /\
  tm = 100000 /\
  tm * 1000 = 100 * NS_PER_MS /\
  tm <> 100 * NS_PER_MS.
Proof.
  intros Hmain Hin.
  destruct (main_conversion _ _ _ _ _ _ Hmain Hin eq_refl)
    as (cvt & p & size & outfile & t1 & tc & rc & Hrun & -> & Hsetup & _).
  apply (setup_only_not_In _ _ _ Hsetup) in Hin; [| reflexivity].
  destruct (convert_dispatch _ _ _ _ _ _ _ _ Hrun) as (_ & Hwait & Hcount).
  pose proof (Hcount (E_glClientWaitSync s fl tm) eq_refl Hin) as [Hone _].
  destruct (Hwait _ _ _ Hin) as [-> ->].
  split.
  - rewrite setup_only_count; [| exact Hsetup |].
    + exact Hone.
    + intros [] He; try discriminate He; reflexivity.
  - repeat split; vm_compute; discriminate.
Qed.

Lemma fence_wait_timeout_witness :
  main sample_world "debayer" ["in.raw"; "out.rgba"]
  = Some (sample_trace, Returned 0) /\
  In (E_glClientWaitSync (Some 4001) GL_SYNC_FLUSH_COMMANDS_BIT 100000)
    sample_trace /\
  count_events is_fence_wait sample_trace = 1%nat /\
  100000 <> 100 * NS_PER_MS.
Proof.
  assert (Hmain : main sample_world "debayer" ["in.raw"; "out.rgba"]
                  = Some (sample_trace, Returned 0))
    by (vm_compute; reflexivity).
  assert (Hin : In (E_glClientWaitSync (Some 4001) GL_SYNC_FLUSH_COMMANDS_BIT
                      100000) sample_trace)
    by (unfold sample_trace; present).
  destruct (fence_wait_timeout _ _ _ _ _ _ _ _ Hmain Hin)
    as (Hcount & _ & _ & _ & Hns).
  repeat (split; [assumption |]). exact Hns.
Defined.

(** * Further properties *)

(** ** File helpers *)

(** X1.  For a positive [data_size], [write_output_file] returns
    [data_size] exactly when the file opened and [fwrite] took every byte,
    0 exactly when the file did not open, and -1 exactly when it opened and
    the write fell short. *)
Theorem write_output_file_result (fs : file_system) (fname : string)
    (p_data data_size : Z) :
  0 < data_size ->
  let io := fs fname "wb" in
  let r := result (write_output_file fs fname p_data data_size) in
  (r = data_size <-> fopen_res io <> NULL /\ fwrite_res io = data_size) /\
  (r = 0 <-> fopen_res io = NULL) /\
  (r = -1 <-> fopen_res io <> NULL /\ fwrite_res io <> data_size).
Proof.
  intros Hpos io r. subst r. unfold write_output_file, result. fold io.
  destruct (fopen_res io =? NULL) eqn:Hopen;
    [| destruct (negb (fwrite_res io =? data_size)) eqn:Hfull];
    step; bools.
  all: repeat split; intros; try lia; try tauto.
  all: try (destruct H; congruence).
Qed.

Lemma write_output_file_result_witness :
  0 < 400 /\
  result (write_output_file sample_files "out.rgba" 5001 400) = 400 /\
  result (write_output_file readonly_files "out.rgba" 5001 400) = 0.
Proof.
  assert (Hpos : 0 < 400) by lia.
  split; [exact Hpos |].
  destruct (write_output_file_result sample_files "out.rgba" 5001 400 Hpos)
    as (Hfull & _ & _).
  destruct (write_output_file_result readonly_files "out.rgba" 5001 400 Hpos)
    as (_ & Hnone & _).
  split.
  - apply Hfull. split; [vm_compute; discriminate | vm_compute; reflexivity].
  - apply Hnone. vm_compute; reflexivity.
Defined.

(** X2.  [write_output_file] opens one file; when it opened it writes to it
    once and closes it once, as the last thing it does, whether or not the
    write was complete; when it did not open it neither writes nor
    closes. *)
Theorem write_output_file_closes_what_it_opens (fs : file_system)
    (fname : string) (p_data data_size : Z) :
  let io := fs fname "wb" in
  let t := events (write_output_file fs fname p_data data_size) in
  count_events is_fopen t = 1%nat /\
  count_events is_fclose t = (if fopen_res io =? NULL then 0%nat else 1%nat) /\
  count_events is_fwrite t = (if fopen_res io =? NULL then 0%nat else 1%nat) /\
  last t (E_fclose NULL 0)
  = (if fopen_res io =? NULL then E_fopen fname "wb" (fopen_res io)
     else E_fclose (fopen_res io) (fclose_res io)).
Proof.
  intros io t. subst t. unfold write_output_file, events. fold io.
  destruct (fopen_res io =? NULL) eqn:Hopen;
    [| destruct (negb (fwrite_res io =? data_size)) eqn:Hfull];
    step.
  all: repeat split; reflexivity.
Qed.

(** X3.  [read_input_file] returns a positive value exactly when the file
    opened, its size is positive, the buffer was had and the read was
    complete, and the value is then that size; it returns 0 exactly when
    the file did not open, and -1 in every other case. *)
Theorem read_input_file_return_classes (fs : file_system)
    (fname type : string) :
  let io := fs fname type in
  let r := fst (result (read_input_file fs fname type)) in
  (0 < r <-> fopen_res io <> NULL /\ 0 < ftell_res io /\
             malloc_res io <> NULL /\ fread_res io = ftell_res io) /\
  (0 < r -> r = ftell_res io) /\
  (r = 0 <-> fopen_res io = NULL) /\
  (r = 0 \/ r = -1 \/ 0 < r).
Proof.
  intros io r. subst r. unfold read_input_file, result. fold io.
  destruct (fopen_res io =? NULL) eqn:Hopen;
    [| destruct (ftell_res io <=? 0) eqn:Hsize;
       [| destruct (malloc_res io =? NULL) eqn:Hbuf;
          [| destruct (negb (fread_res io =? ftell_res io)) eqn:Hread]]];
    step; bools.
  all: repeat split; intros; try lia; try tauto.
  all: try (repeat match goal with H : _ /\ _ |- _ => destruct H end;
            first [lia | congruence]).
Qed.

Lemma read_input_file_return_classes_witness :
  fopen_res (sample_files "in.raw" "rb") <> NULL /\
  fst (result (read_input_file sample_files "in.raw" "rb")) = 100 /\
  fst (result (read_input_file no_file_system "in.raw" "rb")) = 0.
Proof.
  assert (Hopen : fopen_res (sample_files "in.raw" "rb") <> NULL)
    by (vm_compute; discriminate).
  split; [exact Hopen |].
  destruct (read_input_file_return_classes sample_files "in.raw" "rb")
    as (Hpos & Hsize & _ & _).
  destruct (read_input_file_return_classes no_file_system "in.raw" "rb")
    as (_ & _ & Hzero & _).
  split.
  - rewrite Hsize; [reflexivity |].
    apply Hpos. split; [exact Hopen |].
    split; [vm_compute; reflexivity |].
    split; [vm_compute; discriminate | reflexivity].
  - apply Hzero. reflexivity.
Defined.


(** ** EGL set-up *)

(** X5.  [init_egl] returns 0 exactly when the render node opens, the GBM
    device and the display are had, the display initialises, both
    extensions are listed, a configuration is chosen, the API is bound, the
    context is created and it is made current.  The outcome of the first
    eglChooseConfig, which only counts the configurations, plays no part. *)
Theorem init_egl_succeeds_iff (w : egl_world) (conv : converter)
    (render_node : string) :
  fst (result (init_egl w conv render_node)) = 0 <->
  0 <= open_res w /\
  gbm_create_device_res w <> NULL /\
  eglGetPlatformDisplay_res w <> NULL /\
  eglInitialize_res w = true /\
  strstr (eglQueryString_res w) "EGL_KHR_create_context" = true /\
  strstr (eglQueryString_res w) "EGL_KHR_surfaceless_context" = true /\
  eglChooseConfig_res w = true /\
  eglBindAPI_res w = true /\
  eglCreateContext_res w <> EGL_NO_CONTEXT /\
  eglMakeCurrent_res w = true.
Proof.
  unfold init_egl, unwind, err_egl_make_current, err_egl_ctx, err_egl_dpy,
    err_gbm, result.
  destruct (eglInitialize_res w), (eglChooseConfig_res w),
    (eglBindAPI_res w), (eglMakeCurrent_res w), (count_query_res w),
    (strstr (eglQueryString_res w) "EGL_KHR_create_context"),
    (strstr (eglQueryString_res w) "EGL_KHR_surfaceless_context").
  all: paths; bools.
  all: split; [intros H; try discriminate H; repeat split; assumption |].
  all: intros (H1 & H2 & H3 & H4 & H5 & H6 & H7 & H8 & H9 & H10).
  all: first [reflexivity | discriminate | contradiction | lia].
Qed.

Lemma init_egl_succeeds_iff_witness :
  fst (result (init_egl sample_egl (cvt_declared SHADER_FNAME)
                 RENDER_NODE_FNAME)) = 0 /\
  fst (result (init_egl egl_refusing_current (cvt_declared SHADER_FNAME)
                 RENDER_NODE_FNAME)) <> 0.
Proof.
  split.
  - apply (init_egl_succeeds_iff sample_egl).
    repeat split; vm_compute; first [reflexivity | discriminate].
  - intros H.
    apply (init_egl_succeeds_iff egl_refusing_current) in H
      as (_ & _ & _ & _ & _ & _ & _ & _ & _ & Hcur).
    discriminate Hcur.
Defined.

(** X6.  On every path [init_egl] leaves alone the fields of the context
    that are not its own: the buffers, the input and output pointers, the
    shader and program objects and the shader's file name. *)
Theorem init_egl_keeps_other_fields (w : egl_world) (conv : converter)
    (render_node : string) :
  let conv' := snd (result (init_egl w conv render_node)) in
  bos conv' = bos conv /\
  p_in conv' = p_in conv /\
  p_out conv' = p_out conv /\
  shader_program conv' = shader_program conv /\
  compute_shader conv' = compute_shader conv /\
  shader_fname conv' = shader_fname conv.
Proof.
  unfold init_egl, unwind, err_egl_make_current, err_egl_ctx, err_egl_dpy,
    err_gbm, result.
  paths. all: repeat split.
Qed.

(** X7.  [init_egl] asks GLES for its version only once the context is
    current: a run that holds a glGetIntegerv is a run that returns 0, and
    a run that returns 0 has asked for both version numbers. *)
Theorem init_egl_queries_gl_only_when_current (w : egl_world)
    (conv : converter) (render_node : string) :
  (forall pname v,
      In (E_glGetIntegerv pname v) (events (init_egl w conv render_node)) ->
      fst (result (init_egl w conv render_node)) = 0) /\
  (fst (result (init_egl w conv render_node)) = 0 ->
   In (E_eglMakeCurrent (egl_dpy (snd (result (init_egl w conv render_node))))
         EGL_NO_SURFACE EGL_NO_SURFACE
         (core_ctx (snd (result (init_egl w conv render_node)))) true)
     (events (init_egl w conv render_node)) /\
   In (E_glGetIntegerv GL_MAJOR_VERSION (gl_major w))
     (events (init_egl w conv render_node)) /\
   In (E_glGetIntegerv GL_MINOR_VERSION (gl_minor w))
     (events (init_egl w conv render_node))).
Proof.
  destruct (init_egl w conv render_node) as [t [r conv']] eqn:Hrun.
  revert Hrun.
  unfold init_egl, unwind, err_egl_make_current, err_egl_ctx, err_egl_dpy,
    err_gbm.
  paths.
  all: intros Hrun; injection Hrun as <- <- <-.
  all: split; [intros pname v Hin; members Hin; reflexivity |].
  all: cbn [fst snd result events]; intros H; try discriminate H.
  all: bools.
  all: repeat match goal with
              | H : eglMakeCurrent_res _ = true |- _ => rewrite H
              end.
  all: repeat split; present.
Qed.

Lemma init_egl_queries_gl_only_when_current_witness :
  In (E_glGetIntegerv GL_MAJOR_VERSION 3)
    (events (init_egl sample_egl (cvt_declared SHADER_FNAME)
               RENDER_NODE_FNAME)) /\
  fst (result (init_egl sample_egl (cvt_declared SHADER_FNAME)
                 RENDER_NODE_FNAME)) = 0.
Proof.
  assert (Hin : In (E_glGetIntegerv GL_MAJOR_VERSION 3)
                  (events (init_egl sample_egl (cvt_declared SHADER_FNAME)
                             RENDER_NODE_FNAME)))
    by (vm_compute; auto 30).
  split; [exact Hin |].
  exact (proj1 (init_egl_queries_gl_only_when_current sample_egl
                  (cvt_declared SHADER_FNAME) RENDER_NODE_FNAME) _ _ Hin).
Defined.

(** ** The compute shader *)

Lemma to_int_GLenum_zero (e : Z) : is_GLenum e -> (to_int e = 0 <-> e = 0).
Proof.
  unfold is_GLenum. intros He. unfold to_int, wrap_signed.
  change (2 ^ (32 - 1)) with (2 ^ 31). change (2 ^ 32) with (2 * 2 ^ 31) in *.
  destruct (Z_lt_ge_dec e (2 ^ 31)) as [Hlow | Hhigh].
  - rewrite Z.mod_small by lia. lia.
  - replace (e + 2 ^ 31) with (e - 2 ^ 31 + 1 * (2 * 2 ^ 31)) by lia.
    rewrite Z.mod_add by lia. rewrite Z.mod_small by lia. lia.
Qed.

(** X8.  With error codes that are [GLenum]s, [init_shader] returns 0 in
    three cases only, the source having been read in each: every step
    succeeded; glCreateShader refused the object while glGetError() reported
    no error; or glCreateProgram refused the object while glGetError()
    reported no error.  In the last two the caller is told of a success
    although no program exists. *)
Theorem init_shader_returns_zero_iff (fs : file_system) (w : shader_world)
    (conv : converter) :
  is_GLenum (err_create_shader w) ->
  is_GLenum (err_shader_source w) ->
  is_GLenum (err_create_program w) ->
  is_GLenum (err_attach w) ->
  is_GLenum (err_link w) ->
  fst (result (init_shader fs w conv)) = 0 <->
  0 < to_int (fst (result (read_input_text_file fs (shader_fname conv)))) /\
  ((glCreateShader_res w = 0 /\ err_create_shader w = GL_NO_ERROR) \/
   (glCreateShader_res w <> 0 /\ err_shader_source w = GL_NO_ERROR /\
    compile_status w = GL_TRUE /\
    ((glCreateProgram_res w = 0 /\ err_create_program w = GL_NO_ERROR) \/
     (glCreateProgram_res w <> 0 /\ err_attach w = GL_NO_ERROR /\
      err_link w = GL_NO_ERROR)))).
Proof.
  intros Hcs Hss Hcp Hat Hli.
  apply to_int_GLenum_zero in Hcs, Hss, Hcp, Hat, Hli.
  unfold init_shader, err_del_program, err_del_shader, bind, result.
  destruct (read_input_text_file fs (shader_fname conv)) as [t [size data]].
  cbn [fst snd].
  generalize dependent (to_int (err_create_shader w)).
  generalize dependent (to_int (err_shader_source w)).
  generalize dependent (to_int (err_create_program w)).
  generalize dependent (to_int (err_attach w)).
  generalize dependent (to_int (err_link w)).
  generalize (to_int size).
  intros cnt r_li Hli r_at Hat r_cp Hcp r_ss Hss r_cs Hcs.
  destruct (cnt <=? 0) eqn:Hcnt;
    [| destruct (glCreateShader_res w =? 0) eqn:Hsh;
       [| destruct (negb (err_shader_source w =? GL_NO_ERROR)) eqn:Hsrc;
          [| destruct (negb (compile_status w =? GL_TRUE)) eqn:Hcomp;
             [destruct (log_malloc_res w =? NULL);
              [| destruct (err_info_log w =? GL_NO_ERROR)]
             | destruct (glCreateProgram_res w =? 0) eqn:Hprog;
               [| destruct (negb (err_attach w =? GL_NO_ERROR)) eqn:Hatt;
                  [| destruct (negb (err_link w =? GL_NO_ERROR)) eqn:Hlnk]]]]]];
    step; bools; unfold GL_NO_ERROR, GL_TRUE in *.
  all: try match goal with
             | H : ?r = 0 <-> _ |- ?r = 0 <-> _ => rewrite H
             end.
  all: clear Hli Hat Hcp Hss Hcs.
  all: lia.
Qed.

Lemma init_shader_returns_zero_iff_witness :
  is_GLenum GL_NO_ERROR /\
  fst (result (init_shader sample_files sample_shader
                 (cvt_declared SHADER_FNAME))) = 0.
Proof.
  assert (H0 : is_GLenum GL_NO_ERROR) by (unfold is_GLenum, GL_NO_ERROR; lia).
  split; [exact H0 |].
  apply (init_shader_returns_zero_iff sample_files sample_shader
           (cvt_declared SHADER_FNAME) H0 H0 H0 H0 H0).
  split; [vm_compute; reflexivity |].
  right. split; [vm_compute; discriminate |].
  split; [reflexivity |]. split; [reflexivity |].
  right. split; [vm_compute; discriminate |]. split; reflexivity.
Defined.

Lemma heap_after_app (t1 t2 : trace) (live : list Z) :
  heap_after (t1 ++ t2) live
  = match heap_after t1 live with
    | Some l => heap_after t2 l
    | None => None
    end.
Proof.
  revert live. induction t1 as [| e t1 IH]; intros live; [reflexivity |].
  destruct e; cbn [app heap_after]; try apply IH.
  destruct ptr as [p |]; [| reflexivity].
  destruct (take_out p live); [apply IH | reflexivity].
Qed.

Lemma take_out_head (p : Z) (live : list Z) :
  take_out p (p :: live) = Some live.
Proof. cbn [take_out]. rewrite Z.eqb_refl. reflexivity. Qed.

(** What [read_input_file] returns and which buffer it leaves live. *)
Lemma read_input_file_heap (fs : file_system) (fname type : string) :
  let run := read_input_file fs fname type in
  ((fst (result run) = 0 \/ fst (result run) = -1) /\
   heap_after (events run) [] = Some []) \/
  (0 < fst (result run) /\ fst (result run) = ftell_res (fs fname type) /\
   snd (result run) = Some (malloc_res (fs fname type)) /\
   heap_after (events run) [] = Some [malloc_res (fs fname type)]).
Proof.
  intros run. subst run. unfold read_input_file, events, result.
  set (io := fs fname type).
  destruct (fopen_res io =? NULL) eqn:Hopen;
    [| destruct (ftell_res io <=? 0) eqn:Hsize;
       [| destruct (malloc_res io =? NULL) eqn:Hbuf;
          [| destruct (negb (fread_res io =? ftell_res io)) eqn:Hread]]];
    step; cbn [heap_after]; known; rewrite ?take_out_head.
  1: left; split; [left |]; reflexivity.
  1-3: left; split; [right |]; reflexivity.
  right. bools. repeat split; try reflexivity; lia.
Qed.

(** X9.  When the shader file is smaller than 2 GiB, [init_shader] frees
    every buffer it allocates, the source text and the compiler's log,
    exactly once on every path: each [free] is given a buffer that [malloc]
    returned and that has not been freed since, and no buffer is live when
    the function returns. *)
Theorem init_shader_frees_what_it_allocates (fs : file_system)
    (w : shader_world) (conv : converter) :
  ftell_res (fs (shader_fname conv) "r") <= INT_MAX ->
  heap_after (events (init_shader fs w conv)) [] = Some [].
Proof.
  intros Hfit.
  destruct (read_input_file_heap fs (shader_fname conv) "r")
    as [(Hneg & Hheap) | (Hpos & Hsize & Hdata & Hheap)].
  - assert (Hcnt : (to_int (fst (result (read_input_file fs
                                           (shader_fname conv) "r"))) <=? 0)
                   = true).
    { destruct Hneg as [H | H]; rewrite H; reflexivity. }
    revert Hheap Hcnt.
    unfold init_shader, read_input_text_file, bind, events, result.
    destruct (read_input_file fs (shader_fname conv) "r") as [t [size data]].
    cbn [fst snd]. intros Hheap ->. cbn -[Z.eqb to_int heap_after].
    rewrite !heap_after_app, Hheap. reflexivity.
  - assert (Hcnt : (to_int (fst (result (read_input_file fs
                                           (shader_fname conv) "r"))) <=? 0)
                   = false).
    { rewrite to_int_small; [apply Z.leb_gt; exact Hpos |].
      rewrite Hsize in *. unfold INT_MAX in *. lia. }
    revert Hdata Hheap Hcnt.
    unfold init_shader, read_input_text_file, err_del_program, err_del_shader,
      bind, events, result.
    destruct (read_input_file fs (shader_fname conv) "r") as [t [size data]].
    cbn [fst snd]. intros -> Hheap ->.
    destruct (glCreateShader_res w =? 0);
      [| destruct (negb (err_shader_source w =? GL_NO_ERROR));
         [| destruct (negb (compile_status w =? GL_TRUE));
            [destruct (log_malloc_res w =? NULL) eqn:Hlog;
             [| destruct (err_info_log w =? GL_NO_ERROR)]
            | destruct (glCreateProgram_res w =? 0);
              [| destruct (negb (err_attach w =? GL_NO_ERROR));
                 [| destruct (negb (err_link w =? GL_NO_ERROR))]]]]];
      cbn -[Z.eqb to_int heap_after].
    all: rewrite !heap_after_app, Hheap.
    all: cbn [heap_after]; rewrite ?Hlog, ?take_out_head;
      cbn [heap_after]; rewrite ?take_out_head; reflexivity.
Qed.

Lemma init_shader_frees_what_it_allocates_witness :
  ftell_res (sample_files (shader_fname (cvt_declared SHADER_FNAME)) "r")
  <= INT_MAX /\
  heap_after (events (init_shader sample_files sample_shader
                        (cvt_declared SHADER_FNAME))) [] = Some [] /\
  In (E_malloc 640 2002)
    (events (init_shader sample_files sample_shader
               (cvt_declared SHADER_FNAME))) /\
  In (E_free (Some 2002))
    (events (init_shader sample_files sample_shader
               (cvt_declared SHADER_FNAME))).
Proof.
  assert (Hfit : ftell_res (sample_files
                              (shader_fname (cvt_declared SHADER_FNAME)) "r")
                 <= INT_MAX) by (vm_compute; discriminate).
  split; [exact Hfit |].
  split; [exact (init_shader_frees_what_it_allocates sample_files
                   sample_shader (cvt_declared SHADER_FNAME) Hfit) |].
  split; vm_compute; auto 30.
Defined.

(** X10.  [init_shader] deletes the shader object exactly on the paths that
    reach glCreateProgram, so an object whose source upload or compilation
    fails is never deleted; and it deletes a program only after attaching
    the shader to it, when the attachment or the link raised an error. *)
Theorem init_shader_deletes_shader_iff_program_attempted (fs : file_system)
    (w : shader_world) (conv : converter) :
  let t := events (init_shader fs w conv) in
  count_events is_delete_shader t = count_events is_create_program t /\
  (forall p,
      In (E_glDeleteProgram p) t ->
      (exists s, In (E_glAttachShader p s) t) /\
      (err_attach w <> GL_NO_ERROR \/ err_link w <> GL_NO_ERROR)).
Proof.
  intros t. subst t.
  unfold init_shader, read_input_text_file, read_input_file, err_del_program,
    err_del_shader, events.
  paths.
  all: split; [reflexivity |].
  all: intros p Hin; members Hin; bools.
  all: split; [eexists; present | auto].
Qed.

Lemma init_shader_deletes_shader_iff_program_attempted_witness :
  In (E_glDeleteProgram (Some 2))
    (events (init_shader sample_files unlinkable_shader
               (cvt_declared SHADER_FNAME))) /\
  (exists s, In (E_glAttachShader (Some 2) s)
               (events (init_shader sample_files unlinkable_shader
                          (cvt_declared SHADER_FNAME)))) /\
  count_events is_delete_shader
    (events (init_shader sample_files unlinkable_shader
               (cvt_declared SHADER_FNAME))) = 1%nat.
Proof.
  assert (Hin : In (E_glDeleteProgram (Some 2))
                  (events (init_shader sample_files unlinkable_shader
                             (cvt_declared SHADER_FNAME))))
    by (vm_compute; auto 30).
  destruct (init_shader_deletes_shader_iff_program_attempted sample_files
              unlinkable_shader (cvt_declared SHADER_FNAME)) as [Hcount Hdel].
  split; [exact Hin |].
  split; [exact (proj1 (Hdel _ Hin)) |].
  rewrite Hcount. vm_compute; reflexivity.
Defined.

(** X11.  On every path [init_shader] leaves alone the fields of the context
    that are not its own: the descriptor, the GBM device, the display, the
    rendering context, the buffers and the shader's file name. *)
Theorem init_shader_keeps_other_fields (fs : file_system) (w : shader_world)
    (conv : converter) :
  let conv' := snd (result (init_shader fs w conv)) in
  fd conv' = fd conv /\
  gbm conv' = gbm conv /\
  egl_dpy conv' = egl_dpy conv /\
  core_ctx conv' = core_ctx conv /\
  bos conv' = bos conv /\
  shader_fname conv' = shader_fname conv.
Proof.
  unfold init_shader, read_input_text_file, read_input_file, err_del_program,
    err_del_shader, result.
  paths. all: repeat split.
Qed.

(** ** Whole runs *)

(** Every run of [main] is one of the seven of [main_run]. *)
Lemma main_after_options_run (w : world) (argv0 : string)
    (st : getopt_state) :
  main_run w argv0 (events (main_after_options w st))
    (result (main_after_options w st)).
Proof.
  unfold main_after_options.
  destruct (positional st) as [| infile [| outfile [| extra more]]].
  1, 2, 4: apply run_bad_arguments.
  pose proof (run_unreadable w argv0 infile) as Hrd.
  pose proof (run_no_egl w argv0 infile) as Hegl.
  pose proof (run_no_shader w argv0 infile) as Hsh.
  pose proof (run_converted w argv0 infile outfile) as Hcv.
  unfold phase_convert, phase_shader, phase_egl, phase_read in *.
  unfold bind, events, result in *.
  destruct (read_input_bin_file (files w) infile) as [t_rd [size data]].
  cbn [fst snd] in *.
  destruct (size <=? 0) eqn:Hsize; bools.
  { cbn [fst snd app call ret]. apply Hrd. exact Hsize. }
  destruct (init_egl (egl w) (cvt_declared SHADER_FNAME) RENDER_NODE_FNAME)
    as [t_egl [r_egl cvt1]].
  cbn [fst snd] in *.
  destruct (negb (r_egl =? 0)) eqn:Hr_egl; bools.
  { cbn [fst snd app call ret]. apply Hegl; assumption. }
  destruct (init_shader (files w) (shader w) cvt1) as [t_sh [r_sh cvt2]].
  cbn [fst snd] in *.
  destruct (negb (r_sh =? 0)) eqn:Hr_sh; bools.
  { cbn [fst snd app call ret]. apply Hsh; assumption. }
  destruct (convert w cvt2 data size (to_long (4 * size)) outfile)
    as [t_cv r_cv].
  cbn [fst snd app call ret] in *. rewrite app_nil_r. apply Hcv; assumption.
Qed.

Lemma main_is_a_run (w : world) (argv0 : string) (args : list string)
    (t : trace) (o : outcome) :
  main w argv0 args = Some (t, o) -> main_run w argv0 t o.
Proof.
  unfold main.
  destruct (process_options _ _ _ _ _) as [opts |] eqn:Hopts;
    [| discriminate].
  apply process_options_shape in Hopts as [(st' & b & ->) | [-> | ->]].
  - pose proof (main_after_options_run w argv0 st') as Hrun.
    unfold events, result in Hrun. cbn [bind app].
    destruct (main_after_options w st') as [t' o'].
    intros H; injection H as <- <-. exact Hrun.
  - intros H; injection H as <- <-. apply run_bad_order.
  - intros H; injection H as <- <-. apply run_usage.
Qed.

Lemma acquired_app (t1 t2 : trace) :
  acquired (t1 ++ t2) = acquired t1 ++ acquired t2.
Proof. apply flat_map_app. Qed.

Lemma released_app (t1 t2 : trace) :
  released (t1 ++ t2) = released t1 ++ released t2.
Proof. apply flat_map_app. Qed.

Lemma read_input_file_holds_no_resource (fs : file_system)
    (fname type : string) :
  acquired (events (read_input_file fs fname type)) = [] /\
  released (events (read_input_file fs fname type)) = [].
Proof.
  unfold read_input_file, events, acquired, released.
  paths; split; reflexivity.
Qed.

Lemma init_shader_holds_no_resource (fs : file_system) (w : shader_world)
    (conv : converter) :
  acquired (events (init_shader fs w conv)) = [] /\
  released (events (init_shader fs w conv)) = [].
Proof.
  unfold init_shader, read_input_text_file, read_input_file, err_del_program,
    err_del_shader, events, acquired, released.
  paths; split; reflexivity.
Qed.

Lemma init_shader_keeps_egl_handles (fs : file_system) (w : shader_world)
    (conv : converter) :
  fd (snd (result (init_shader fs w conv))) = fd conv /\
  gbm (snd (result (init_shader fs w conv))) = gbm conv /\
  egl_dpy (snd (result (init_shader fs w conv))) = egl_dpy conv /\
  core_ctx (snd (result (init_shader fs w conv))) = core_ctx conv.
Proof.
  unfold init_shader, read_input_text_file, read_input_file, err_del_program,
    err_del_shader, result.
  paths. all: repeat split.
Qed.

(** On every path [convert] acquires nothing and gives back the four
    resources of the context, the last acquired first. *)
Lemma convert_releases_context (w : world) (cvt : converter)
    (p_data_in : var) (data_in_size data_out_size : Z) (outfile : string)
    (t : trace) (r : Z) :
  convert w cvt p_data_in data_in_size data_out_size outfile = (t, r) ->
  acquired t = [] /\
  released t
  = [R_ctx (egl_dpy cvt) (core_ctx cvt); R_dpy (egl_dpy cvt);
     R_gbm (gbm cvt); R_fd (fd cvt)].
Proof.
  convert_paths. all: split; reflexivity.
Qed.

(** A failing [init_egl] gives back what it acquired, last first. *)
Lemma init_egl_unwinding (w : egl_world) (conv : converter)
    (render_node : string) :
  fst (result (init_egl w conv render_node)) <> 0 ->
  released (events (init_egl w conv render_node))
  = rev (acquired (events (init_egl w conv render_node))).
Proof.
  unfold init_egl, unwind, err_egl_make_current, err_egl_ctx, err_egl_dpy,
    err_gbm, released, acquired, events, result.
  paths.
  all: intros H; try (exfalso; apply H; reflexivity).
  all: reflexivity.
Qed.

Lemma result_eta {A B : Type} (m : Run (A * B)) (a : A) :
  fst (result m) = a -> result m = (a, snd (result m)).
Proof. destruct m as [t [a' b]]. cbn. intros ->. reflexivity. Qed.

(** Whatever [init_egl] gives back, it gives back by the handles the
    acquiring calls returned. *)
Lemma init_egl_releases_its_handles (w : egl_world) (conv : converter)
    (render_node : string) (r : resource) :
  In r (released (events (init_egl w conv render_node))) ->
  r = R_fd (Some (open_res w)) \/
  r = R_gbm (Some (gbm_create_device_res w)) \/
  r = R_dpy (Some (eglGetPlatformDisplay_res w)) \/
  r = R_ctx (Some (eglGetPlatformDisplay_res w))
        (Some (eglCreateContext_res w)).
Proof.
  unfold init_egl, unwind, err_egl_make_current, err_egl_ctx, err_egl_dpy,
    err_gbm, released, events.
  paths.
  all: intros Hin; cbn in Hin;
    repeat (destruct Hin as [<- | Hin]; [auto 6 |]); contradiction.
Qed.

(** X12.  Every run of [main], save those that die at the creation of the
    shader, gives back exactly the descriptor, GBM device, display and
    context it acquired, in the reverse of the order it acquired them in,
    each by the handle the acquiring call returned and the context on the
    display it was created on. *)
Theorem main_releases_what_it_acquires (w : world) (argv0 : string)
    (args : list string) (t : trace) (o : outcome) :
  main w argv0 args = Some (t, o) ->
  (forall s, o = Exited s -> fst (result (phase_egl w)) <> 0) ->
  released t = rev (acquired t) /\
  (forall r,
      In r (released t) ->
      r = R_fd (Some (open_res (egl w))) \/
      r = R_gbm (Some (gbm_create_device_res (egl w))) \/
      r = R_dpy (Some (eglGetPlatformDisplay_res (egl w))) \/
      r = R_ctx (Some (eglGetPlatformDisplay_res (egl w)))
            (Some (eglCreateContext_res (egl w)))).
Proof.
  intros Hmain Hexit. apply main_is_a_run in Hmain.
  destruct Hmain as [| | | infile Hrd | infile Hrd Hegl
                     | infile Hrd Hegl Hsh | infile outfile Hrd Hegl Hsh].
  1-3: split; [reflexivity | intros r []].
  - destruct (read_input_file_holds_no_resource (files w) infile "rb")
      as [Ha Hr].
    unfold phase_read, read_input_bin_file.
    rewrite acquired_app, released_app, Ha, Hr.
    split; [reflexivity | intros r []].
  - destruct (read_input_file_holds_no_resource (files w) infile "rb")
      as [Ha Hr].
    unfold phase_read, read_input_bin_file.
    rewrite !acquired_app, !released_app, Ha, Hr. cbn [app].
    unfold phase_egl in *. rewrite (init_egl_unwinding _ _ _ Hegl).
    cbn [acquired released flat_map acquires releases].
    rewrite !app_nil_r.
    split; [reflexivity |].
    intros r Hin. rewrite <- (init_egl_unwinding _ _ _ Hegl) in Hin.
    exact (init_egl_releases_its_handles _ _ _ _ Hin).
  - exfalso. apply (Hexit EXIT_FAILURE eq_refl). exact Hegl.
  - destruct (read_input_file_holds_no_resource (files w) infile "rb")
      as [Ha Hr].
    destruct (init_shader_holds_no_resource (files w) (shader w)
                (snd (result (phase_egl w)))) as [Ha' Hr'].
    destruct (init_shader_keeps_egl_handles (files w) (shader w)
                (snd (result (phase_egl w)))) as (Hfd & Hgbm & Hdpy & Hctx).
    destruct (init_egl_success _ _ _ _ (result_eta _ _ Hegl)) as [Ha0 Hr0].
    destruct (init_egl_handles _ _ _ Hegl) as (Hfd0 & Hgbm0 & Hdpy0 & Hctx0).
    fold (phase_egl w) in Ha0, Hr0, Hfd0, Hgbm0, Hdpy0, Hctx0.
    fold (phase_shader w) in *.
    destruct (phase_convert w infile outfile) as [tc rc] eqn:Hcv.
    destruct (convert_releases_context _ _ _ _ _ _ _ _ Hcv) as [Hac Hrc].
    unfold phase_read, read_input_bin_file.
    rewrite !acquired_app, !released_app, Ha, Hr, Ha', Hr', Ha0, Hr0.
    cbn [events fst]. rewrite Hac, Hrc, Hfd, Hgbm, Hdpy, Hctx.
    split; [reflexivity |].
    rewrite Hfd0, Hgbm0, Hdpy0, Hctx0.
    intros r Hin. cbn in Hin.
    repeat (destruct Hin as [<- | Hin]; [auto 6 |]). contradiction.
Qed.

Lemma main_releases_what_it_acquires_witness :
  main sample_world "debayer" ["in.raw"; "out.rgba"]
  = Some (sample_trace, Returned 0) /\
  acquired sample_trace
  = [R_fd (Some 3); R_gbm (Some 3001); R_dpy (Some 3002);
     R_ctx (Some 3002) (Some 3004)] /\
  released sample_trace
  = [R_ctx (Some 3002) (Some 3004); R_dpy (Some 3002); R_gbm (Some 3001);
     R_fd (Some 3)].
Proof.
  assert (Hmain : main sample_world "debayer" ["in.raw"; "out.rgba"]
                  = Some (sample_trace, Returned 0))
    by (vm_compute; reflexivity).
  split; [exact Hmain |].
  split; [vm_compute; reflexivity |].
  destruct (main_releases_what_it_acquires _ _ _ _ _ Hmain) as [Hrel _].
  - intros s H; discriminate H.
  - rewrite Hrel. vm_compute; reflexivity.
Defined.

(** X13.  A run of [main] that dies at the creation of the shader calls
    exit(EXIT_FAILURE) holding the descriptor, the GBM device, the display
    and the context: it has acquired all four and released none. *)
Theorem main_shader_failure_keeps_egl (w : world) (argv0 : string)
    (args : list string) (t : trace) (s : Z) :
  main w argv0 args = Some (t, Exited s) ->
  fst (result (phase_egl w)) = 0 ->
  s = EXIT_FAILURE /\
  fst (result (phase_shader w)) <> 0 /\
  acquired t
  = [R_fd (fd (snd (result (phase_egl w))));
     R_gbm (gbm (snd (result (phase_egl w))));
     R_dpy (egl_dpy (snd (result (phase_egl w))));
     R_ctx (egl_dpy (snd (result (phase_egl w))))
       (core_ctx (snd (result (phase_egl w))))] /\
  released t = [].
Proof.
  intros Hmain Hok. apply main_is_a_run in Hmain.
  inversion Hmain as [| | | | infile Hrd Hegl | infile Hrd Hegl Hsh |];
    subst; [contradiction |].
  destruct (read_input_file_holds_no_resource (files w) infile "rb")
    as [Ha Hr].
  destruct (init_shader_holds_no_resource (files w) (shader w)
              (snd (result (phase_egl w)))) as [Ha' Hr'].
  destruct (init_egl_success _ _ _ _ (result_eta _ _ Hegl)) as [Ha0 Hr0].
  fold (phase_egl w) in Ha0, Hr0. fold (phase_shader w) in *.
  unfold phase_read, read_input_bin_file.
  rewrite !acquired_app, !released_app, Ha, Hr, Ha', Hr', Ha0, Hr0.
  repeat split; assumption || reflexivity.
Qed.

Lemma main_shader_failure_keeps_egl_witness :
  main no_shader_world "debayer" ["in.raw"; "out.rgba"]
  = Some (no_shader_trace, Exited 1) /\
  fst (result (phase_egl no_shader_world)) = 0 /\
  acquired no_shader_trace
  = [R_fd (Some 3); R_gbm (Some 3001); R_dpy (Some 3002);
     R_ctx (Some 3002) (Some 3004)] /\
  released no_shader_trace = [].
Proof.
  assert (Hmain : main no_shader_world "debayer" ["in.raw"; "out.rgba"]
                  = Some (no_shader_trace, Exited 1))
    by (vm_compute; reflexivity).
  assert (Hegl : fst (result (phase_egl no_shader_world)) = 0)
    by (vm_compute; reflexivity).
  destruct (main_shader_failure_keeps_egl _ _ _ _ _ Hmain Hegl)
    as (_ & _ & Hacq & Hrel).
  split; [exact Hmain |]. split; [exact Hegl |].
  split; [rewrite Hacq; vm_compute; reflexivity | exact Hrel].
Defined.

(** ** The command line, continued *)

Lemma advance_nonoptions (posix : bool) (elems passed : list string) :
  forallb nonoption elems = true ->
  advance posix elems passed = NoMoreOptions (passed ++ elems).
Proof.
  revert passed.
  induction elems as [| a elems IH]; intros passed Hplain.
  - cbn. rewrite app_nil_r. reflexivity.
  - cbn [forallb] in Hplain. apply andb_true_iff in Hplain as [Ha Helems].
    cbn [advance].
    destruct a as [| d [| c cl]]; cbn [nonoption] in Ha.
    1, 2: destruct posix; [reflexivity |];
      rewrite (IH _ Helems), <- app_assoc; reflexivity.
    apply negb_true_iff in Ha. rewrite Ha.
    destruct posix; [reflexivity |].
    rewrite (IH _ Helems), <- app_assoc. reflexivity.
Qed.

(** With nothing but non-options on the command line the option loop ends
    at once and [main] goes on with all of them as file names. *)
Lemma main_without_options (w : world) (argv0 : string)
    (args : list string) :
  forallb nonoption args = true ->
  main w argv0 args
  = Some (main_after_options w
            {| cluster := EmptyString; rest := []; skipped := args |}).
Proof.
  intros Hplain. unfold main. cbn [process_options].
  unfold getopt, getopt_start. cbn [cluster rest skipped].
  rewrite (advance_nonoptions _ _ _ Hplain). cbn [app].
  change (-1 =? -1) with true. cbv beta iota.
  unfold bind, ret.
  destruct (main_after_options w _) as [t o]. reflexivity.
Qed.

(** X14.  Given only non-options, and not exactly two of them, [main]
    prints "Give input and output files" and returns -1 without opening
    any file or device. *)
Theorem main_wants_two_files (w : world) (argv0 : string)
    (args : list string) :
  forallb nonoption args = true ->
  List.length args <> 2%nat ->
  main w argv0 args
  = Some ([E_printf "Give input and output files\n" []], Returned (-1)).
Proof.
  intros Hplain Hlen. rewrite (main_without_options _ _ _ Hplain).
  unfold main_after_options, positional. cbn [skipped].
  destruct args as [| a [| b [| c more]]]; try reflexivity.
  exfalso. apply Hlen. reflexivity.
Qed.

Lemma main_wants_two_files_witness :
  forallb nonoption ["in.raw"; "mid.raw"; "out.rgba"] = true /\
  List.length ["in.raw"; "mid.raw"; "out.rgba"] <> 2%nat /\
  main sample_world "debayer" ["in.raw"; "mid.raw"; "out.rgba"]
  = Some ([E_printf "Give input and output files\n" []], Returned (-1)).
Proof.
  assert (Hplain : forallb nonoption ["in.raw"; "mid.raw"; "out.rgba"] = true)
    by reflexivity.
  assert (Hlen : List.length ["in.raw"; "mid.raw"; "out.rgba"] <> 2%nat)
    by (cbn; lia).
  split; [exact Hplain |]. split; [exact Hlen |].
  exact (main_wants_two_files sample_world "debayer" _ Hplain Hlen).
Defined.

(** More fuel does not change what the option loop does. *)
Lemma process_options_fuel (fuel extra : nat) (posix : bool)
    (argv0 : string) (st : getopt_state) (b_ord : Z) (r : Run loop_exit) :
  process_options fuel posix argv0 st b_ord = Some r ->
  process_options (fuel + extra) posix argv0 st b_ord = Some r.
Proof.
  revert st b_ord.
  induction fuel as [| fuel IH]; intros st b_ord H; [discriminate H |].
  cbn [process_options Nat.add] in *.
  destruct (getopt posix "f:h" st) as [[c optarg] st'].
  destruct (c =? -1); [exact H |].
  destruct (c =? char_code "f"); [exact H |].
  destruct (c =? char_code "h"); [exact H |].
  apply IH. exact H.
Qed.

(** X15.  An option letter other than f and h (and the dash) is passed
    over: with such an option ahead of the other arguments the program does
    what it does without it. *)
Theorem main_ignores_unknown_option (w : world) (argv0 : string)
    (c : ascii) (args : list string) :
  c <> "f"%char -> c <> "h"%char -> c <> "-"%char ->
  main w argv0 (String "-" (String c EmptyString) :: args)
  = main w argv0 args.
Proof.
  intros Hf Hh Hdash.
  assert (Hget : getopt (posixly_correct w) "f:h"
                   (getopt_start (String "-" (String c EmptyString) :: args))
                 = (char_code "?", None, getopt_start args)).
  { unfold getopt, getopt_start. cbn [cluster rest skipped advance].
    rewrite Ascii.eqb_refl.
    apply Ascii.eqb_neq in Hdash. rewrite Hdash. cbn [andb].
    unfold take_option.
    destruct (Ascii.eqb c ":") eqn:Hcolon; [reflexivity |].
    destruct (lookup_option "f:h" c) as [b |] eqn:Hlook; [| reflexivity].
    apply lookup_option_fh in Hlook as [-> | [-> | ->]];
      [contradiction | discriminate Hcolon | contradiction]. }
  destruct (process_options_terminates
              (S (getopt_budget (getopt_start args))) (posixly_correct w)
              argv0 (getopt_start args) (-1)) as [r Hr]; [lia |].
  unfold main at 2. rewrite Hr.
  unfold main. cbn [process_options]. rewrite Hget.
  change (char_code "?" =? -1) with false.
  change (char_code "?" =? char_code "f") with false.
  change (char_code "?" =? char_code "h") with false.
  cbv iota.
  replace (getopt_budget
             (getopt_start (String "-" (String c EmptyString) :: args)))
    with (S (getopt_budget (getopt_start args)) + 2)%nat
    by (unfold getopt_budget, getopt_start; cbn; lia).
  rewrite (process_options_fuel _ _ _ _ _ _ _ Hr). reflexivity.
Qed.

Lemma main_ignores_unknown_option_witness :
  "s"%char <> "f"%char /\
  main sample_world "debayer" ["-s"; "in.raw"; "out.rgba"]
  = Some (sample_trace, Returned 0).
Proof.
  assert (Hf : "s"%char <> "f"%char) by discriminate.
  assert (Hh : "s"%char <> "h"%char) by discriminate.
  assert (Hd : "s"%char <> "-"%char) by discriminate.
  split; [exact Hf |].
  change ["-s"; "in.raw"; "out.rgba"]
    with (String "-" (String "s" EmptyString) :: ["in.raw"; "out.rgba"]).
  rewrite (main_ignores_unknown_option sample_world "debayer" "s"
             ["in.raw"; "out.rgba"] Hf Hh Hd).
  vm_compute; reflexivity.
Defined.

(** ** Whole runs, continued *)

Lemma read_input_file_stdio_only (fs : file_system) (fname type : string) :
  forallb is_stdio_call (events (read_input_file fs fname type)) = true.
Proof.
  unfold read_input_file, events. paths; reflexivity.
Qed.

Lemma read_input_file_setup_calls (fs : file_system) (fname type : string) :
  forallb is_setup_call (events (read_input_file fs fname type)) = true.
Proof.
  unfold read_input_file, events. paths; reflexivity.
Qed.

Lemma init_egl_setup_calls (w : egl_world) (conv : converter)
    (render_node : string) :
  forallb is_setup_call (events (init_egl w conv render_node)) = true.
Proof.
  unfold init_egl, unwind, err_egl_make_current, err_egl_ctx, err_egl_dpy,
    err_gbm, events.
  paths; reflexivity.
Qed.

Lemma init_shader_setup_calls (fs : file_system) (w : shader_world)
    (conv : converter) :
  forallb is_setup_call (events (init_shader fs w conv)) = true.
Proof.
  unfold init_shader, read_input_text_file, read_input_file, err_del_program,
    err_del_shader, events.
  paths; reflexivity.
Qed.

Lemma forallb_In {A : Type} (f : A -> bool) (l : list A) (a : A) :
  forallb f l = true -> In a l -> f a = true.
Proof. rewrite forallb_forall. auto. Qed.

(** A call that is not a set-up call is made by [convert], after a prefix
    of set-up calls, in a run that returns what [convert] returns. *)
Lemma run_event_in_convert (w : world) (argv0 : string) (t : trace)
    (o : outcome) (e : event) :
  main_run w argv0 t o ->
  In e t ->
  is_setup_call e = false ->
  exists infile outfile t1,
    0 < fst (result (phase_read w infile)) /\
    fst (result (phase_egl w)) = 0 /\
    fst (result (phase_shader w)) = 0 /\
    forallb is_setup_call t1 = true /\
    setup_only t1 = true /\
    t = t1 ++ events (phase_convert w infile outfile) /\
    In e (events (phase_convert w infile outfile)) /\
    o = Returned (result (phase_convert w infile outfile)).
Proof.
  intros Hrun Hin He.
  assert (Hno : forall t0, forallb is_setup_call t0 = true -> ~ In e t0).
  { intros t0 Ht0 Hin0. apply (forallb_In _ _ _ Ht0) in Hin0. congruence. }
  destruct Hrun as [| | | infile Hrd | infile Hrd Hegl
                    | infile Hrd Hegl Hsh | infile outfile Hrd Hegl Hsh].
  1-3: exfalso; revert Hin; apply Hno; reflexivity.
  1-3: exfalso; revert Hin; apply Hno;
    unfold phase_read, phase_shader, phase_egl, read_input_bin_file;
    rewrite ?forallb_app, read_input_file_setup_calls,
      ?init_egl_setup_calls, ?init_shader_setup_calls; reflexivity.
  exists infile, outfile,
    (events (phase_read w infile) ++ events (phase_egl w)
     ++ events (phase_shader w)).
  assert (Hpre : forallb is_setup_call
                   (events (phase_read w infile) ++ events (phase_egl w)
                    ++ events (phase_shader w)) = true).
  { unfold phase_read, phase_shader, phase_egl, read_input_bin_file.
    rewrite !forallb_app, read_input_file_setup_calls,
      init_egl_setup_calls, init_shader_setup_calls. reflexivity. }
  repeat (split; [assumption |]).
  split.
  { unfold phase_read, phase_shader, phase_egl, read_input_bin_file.
    rewrite !setup_only_app, read_input_file_setup_only,
      init_egl_setup_only, init_shader_setup_only; reflexivity. }
  split; [rewrite <- !app_assoc; reflexivity |].
  split; [| reflexivity].
  rewrite !app_assoc in Hin.
  apply in_app_or in Hin as [Hin | Hin]; [| exact Hin].
  rewrite <- !app_assoc in Hin. exfalso. exact (Hno _ Hpre Hin).
Qed.

(** X16.  Given two file names of which the first cannot be read, [main]
    calls stdio only: it prints "Failed to read input file" and returns -1,
    having opened neither the render node nor the output file. *)
Theorem main_unreadable_input (w : world) (argv0 infile outfile : string) :
  nonoption infile = true ->
  nonoption outfile = true ->
  fst (result (read_input_bin_file (files w) infile)) <= 0 ->
  exists t,
    main w argv0 [infile; outfile] = Some (t, Returned (-1)) /\
    forallb is_stdio_call t = true /\
    writes_output t = false /\
    In (E_printf ("Failed to read input file \" ++ dq ++ "%s\" ++ dq
                    ++ "\n")%string [PStr infile]) t.
Proof.
  intros Hin Hout Hfail.
  rewrite main_without_options by (cbn; rewrite Hin, Hout; reflexivity).
  unfold main_after_options, positional. cbn [skipped].
  pose proof (read_input_file_stdio_only (files w) infile "rb") as Hstdio.
  pose proof (read_input_file_setup_only (files w) infile "rb" eq_refl)
    as Hsetup.
  unfold read_input_bin_file, bind, events, result in *.
  destruct (read_input_file (files w) infile "rb") as [t_rd [size data]].
  cbn [fst snd] in *. apply Z.leb_le in Hfail. rewrite Hfail.
  cbn [call ret app]. eexists. split; [reflexivity |].
  split; [rewrite forallb_app, Hstdio; reflexivity |].
  split.
  - unfold writes_output. rewrite existsb_app.
    apply setup_only_writes in Hsetup. unfold writes_output in Hsetup.
    rewrite Hsetup. reflexivity.
  - apply in_or_app. right. left. reflexivity.
Qed.

Lemma main_unreadable_input_witness :
  nonoption "in.raw" = true /\
  nonoption "out.rgba" = true /\
  fst (result (read_input_bin_file (files no_input_world) "in.raw")) <= 0 /\
  exists t,
    main no_input_world "debayer" ["in.raw"; "out.rgba"]
    = Some (t, Returned (-1)) /\
    forallb is_stdio_call t = true /\
    writes_output t = false /\
    In (E_printf ("Failed to read input file \" ++ dq ++ "%s\" ++ dq
                    ++ "\n")%string [PStr "in.raw"]) t.
Proof.
  assert (Hin : nonoption "in.raw" = true) by reflexivity.
  assert (Hout : nonoption "out.rgba" = true) by reflexivity.
  assert (Hfail : fst (result (read_input_bin_file (files no_input_world)
                                 "in.raw")) <= 0)
    by (vm_compute; discriminate).
  split; [exact Hin |]. split; [exact Hout |]. split; [exact Hfail |].
  exact (main_unreadable_input no_input_world "debayer" "in.raw" "out.rgba"
           Hin Hout Hfail).
Defined.

(** X17.  [main] calls exit only with EXIT_FAILURE, only once the input has
    been read in full, and before it has made any call other than those of
    the set-up. *)
Theorem main_exits_only_in_setup (w : world) (argv0 : string)
    (args : list string) (t : trace) (s : Z) :
  main w argv0 args = Some (t, Exited s) ->
  s = EXIT_FAILURE /\
  forallb is_setup_call t = true /\
  writes_output t = false /\
  exists size, 0 < size /\ input_read t size.
Proof.
  intros Hmain. apply main_is_a_run in Hmain.
  assert (Hread : forall infile t',
             0 < fst (result (phase_read w infile)) ->
             exists size, 0 < size /\
                          input_read (events (phase_read w infile) ++ t') size).
  { intros infile t' Hpos. unfold phase_read, read_input_bin_file in *.
    destruct (result (read_input_file (files w) infile "rb"))
      as [size data] eqn:Hres.
    cbn [fst] in Hpos.
    destruct (read_input_file_success _ _ _ _ _ Hres Hpos) as (_ & _ & Hev).
    exists size. split; [exact Hpos |].
    rewrite Hev. eexists _, _, _, _, _. reflexivity. }
  inversion Hmain as [| | | | infile Hrd Hegl | infile Hrd Hegl Hsh |];
    subst.
  - split; [reflexivity |].
    assert (Hsetup : setup_only
                       (events (phase_read w infile) ++ events (phase_egl w)
                        ++ [E_printf "EGL initialization failed\n" []])
                     = true).
    { unfold phase_read, phase_egl, read_input_bin_file.
      rewrite !setup_only_app, read_input_file_setup_only,
        init_egl_setup_only; reflexivity. }
    split.
    { unfold phase_read, phase_egl, read_input_bin_file.
      rewrite !forallb_app, read_input_file_setup_calls,
        init_egl_setup_calls. reflexivity. }
    split; [apply setup_only_writes; exact Hsetup |].
    apply Hread. exact Hrd.
  - split; [reflexivity |].
    assert (Hsetup : setup_only
                       (events (phase_read w infile) ++ events (phase_egl w)
                        ++ events (phase_shader w)
                        ++ [E_printf "Shader creation failed\n" []])
                     = true).
    { unfold phase_read, phase_egl, phase_shader, read_input_bin_file.
      rewrite !setup_only_app, read_input_file_setup_only,
        init_egl_setup_only, init_shader_setup_only; reflexivity. }
    split.
    { unfold phase_read, phase_egl, phase_shader, read_input_bin_file.
      rewrite !forallb_app, read_input_file_setup_calls,
        init_egl_setup_calls, init_shader_setup_calls. reflexivity. }
    split; [apply setup_only_writes; exact Hsetup |].
    apply Hread. exact Hrd.
Qed.

Lemma main_exits_only_in_setup_witness :
  main no_shader_world "debayer" ["in.raw"; "out.rgba"]
  = Some (no_shader_trace, Exited 1) /\
  forallb is_setup_call no_shader_trace = true /\
  writes_output no_shader_trace = false.
Proof.
  assert (Hmain : main no_shader_world "debayer" ["in.raw"; "out.rgba"]
                  = Some (no_shader_trace, Exited 1))
    by (vm_compute; reflexivity).
  destruct (main_exits_only_in_setup _ _ _ _ _ Hmain)
    as (_ & Hsetup & Hquiet & _).
  split; [exact Hmain |]. split; [exact Hsetup | exact Hquiet].
Defined.

(** ** The conversion, continued *)

(** On every path [convert] ends with the teardown, after uploading the
    buffer it frees last. *)
Lemma convert_ends_with_teardown (w : world) (cvt : converter)
    (p_data_in : var) (data_in_size data_out_size : Z) (outfile : string)
    (t : trace) (r : Z) :
  convert w cvt p_data_in data_in_size data_out_size outfile = (t, r) ->
  exists t1,
    t = t1 ++ teardown (set_bos cvt (glGenBuffers_res (gl w))) p_data_in /\
    In (E_glBufferData GL_SHADER_STORAGE_BUFFER (to_int data_in_size)
          p_data_in GL_STREAM_DRAW) t1.
Proof.
  convert_paths.
  all: unfold teardown;
    lazymatch goal with
    | |- exists t1, ?l = _ /\ _ =>
        let n := eval cbv in (List.length l - 7)%nat in
        let t := eval cbn in (firstn n l) in
        exists t; split; [reflexivity | present]
    end.
Qed.

(** What [convert] returns, and which of its calls it makes, by the errors
    glGetError() reports. *)
Lemma convert_status (w : world) (cvt : converter) (p_data_in : var)
    (data_in_size data_out_size : Z) (outfile : string) (t : trace) (r : Z) :
  convert w cvt p_data_in data_in_size data_out_size outfile = (t, r) ->
  (forall s fl tm,
      In (E_glClientWaitSync s fl tm) t ->
      r = if err_use_program (gl w) =? GL_NO_ERROR
          then to_int (err_dispatch (gl w)) else 0) /\
  (err_buffer_in (gl w) <> GL_NO_ERROR \/
   err_buffer_out (gl w) <> GL_NO_ERROR ->
   r = to_int (if err_buffer_in (gl w) =? GL_NO_ERROR
               then err_buffer_out (gl w) else err_buffer_in (gl w)) /\
   forall e, In e t -> conversion_event e = true ->
             is_buffer_data e = true).
Proof.
  convert_paths.
  all: unneg; try congruence.
  all: split;
    [ intros s fl tm Hin; members Hin; known; try reflexivity; bools;
      match goal with
      | H : err_buffer_out _ = GL_NO_ERROR |- _ => rewrite H
      end; reflexivity
    | intros Hup; known;
      first
        [ solve [destruct Hup as [Hup | Hup]; bools; contradiction]
        | split;
          [ reflexivity
          | intros e Hin He; members Hin;
            first [reflexivity | discriminate He] ] ] ].
Qed.

Lemma phase_read_buffer (w : world) (infile : string) :
  0 < fst (result (phase_read w infile)) ->
  snd (result (phase_read w infile))
  = Some (malloc_res (files w infile "rb")).
Proof.
  unfold phase_read, read_input_bin_file. intros Hpos.
  destruct (result (read_input_file (files w) infile "rb"))
    as [size data] eqn:Hres.
  destruct (read_input_file_success _ _ _ _ _ Hres Hpos) as (_ & -> & _).
  reflexivity.
Qed.

(** X18.  Every run of [main] that uploads a buffer returns, and ends with
    the teardown: the buffers and the program are deleted, the context, the
    display, the GBM device and the descriptor are given back, and the input
    buffer, the one that was uploaded, is freed last. *)
Theorem main_conversion_ends_with_teardown (w : world) (argv0 : string)
    (args : list string) (t : trace) (o : outcome) (tg us : glenum)
    (sz : Z) (d : var) :
  main w argv0 args = Some (t, o) ->
  In (E_glBufferData tg sz d us) t ->
  exists t1 cvt p n r,
    t = t1 ++ teardown cvt (Some p) /\
    In (E_glBufferData GL_SHADER_STORAGE_BUFFER n (Some p) GL_STREAM_DRAW)
      t1 /\
    o = Returned r.
Proof.
  intros Hmain Hin. apply main_is_a_run in Hmain.
  destruct (run_event_in_convert _ _ _ _ _ Hmain Hin eq_refl)
    as (infile & outfile & t1 & Hrd & _ & _ & _ & _ & -> & _ & ->).
  destruct (phase_convert w infile outfile) as [tc rc] eqn:Hcv.
  unfold phase_convert in Hcv. rewrite (phase_read_buffer _ _ Hrd) in Hcv.
  destruct (convert_ends_with_teardown _ _ _ _ _ _ _ _ Hcv)
    as (t2 & -> & Hup).
  eexists (t1 ++ t2), _, _, _, _.
  split; [cbn [events fst]; rewrite app_assoc; reflexivity |].
  split; [apply in_or_app; right; exact Hup | reflexivity].
Qed.

Lemma main_conversion_ends_with_teardown_witness :
  main full_world "debayer" ["in.raw"; "out.rgba"]
  = Some (full_trace, Returned 1285) /\
  In (E_glBufferData GL_SHADER_STORAGE_BUFFER 100 (Some 2001) GL_STREAM_DRAW)
    full_trace /\
  exists t1 cvt p n r,
    full_trace = t1 ++ teardown cvt (Some p) /\
    In (E_glBufferData GL_SHADER_STORAGE_BUFFER n (Some p) GL_STREAM_DRAW)
      t1 /\
    Returned 1285 = Returned r.
Proof.
  assert (Hmain : main full_world "debayer" ["in.raw"; "out.rgba"]
                  = Some (full_trace, Returned 1285))
    by (vm_compute; reflexivity).
  assert (Hin : In (E_glBufferData GL_SHADER_STORAGE_BUFFER 100 (Some 2001)
                      GL_STREAM_DRAW) full_trace)
    by (unfold full_trace; present).
  split; [exact Hmain |]. split; [exact Hin |].
  exact (main_conversion_ends_with_teardown _ _ _ _ _ _ _ _ _ Hmain Hin).
Defined.

(** X19.  Once the fence wait has been issued the exit status is settled:
    [main] returns what glGetError() answered after the dispatch when the
    program object could be used, and 0 when it could not, whatever becomes
    of the wait, of the mapping and of the write of the output file. *)
Theorem main_status_after_dispatch (w : world) (argv0 : string)
    (args : list string) (t : trace) (o : outcome) (s : var) (fl : glenum)
    (tm : Z) :
  main w argv0 args = Some (t, o) ->
  In (E_glClientWaitSync s fl tm) t ->
  o = Returned (if err_use_program (gl w) =? GL_NO_ERROR
                then to_int (err_dispatch (gl w)) else 0).
Proof.
  intros Hmain Hin.
  destruct (main_conversion _ _ _ _ _ _ Hmain Hin eq_refl)
    as (cvt & p & size & outfile & t1 & tc & rc & Hrun & -> & Hsetup & ->).
  apply (setup_only_not_In _ _ _ Hsetup) in Hin; [| reflexivity].
  destruct (convert_status _ _ _ _ _ _ _ _ Hrun) as [Hwait _].
  rewrite (Hwait _ _ _ Hin). reflexivity.
Qed.

Lemma main_status_after_dispatch_witness :
  main readonly_world "debayer" ["in.raw"; "out.rgba"]
  = Some (readonly_trace, Returned 0) /\
  In (E_glClientWaitSync (Some 4001) GL_SYNC_FLUSH_COMMANDS_BIT 100000)
    readonly_trace /\
  writes_output readonly_trace = true /\
  (forall p sz n fp r, ~ In (E_fwrite p sz n fp r) readonly_trace).
Proof.
  assert (Hmain : main readonly_world "debayer" ["in.raw"; "out.rgba"]
                  = Some (readonly_trace, Returned 0))
    by (vm_compute; reflexivity).
  assert (Hin : In (E_glClientWaitSync (Some 4001) GL_SYNC_FLUSH_COMMANDS_BIT
                      100000) readonly_trace)
    by (unfold readonly_trace; present).
  pose proof (main_status_after_dispatch _ _ _ _ _ _ _ _ Hmain Hin) as Hret.
  split; [exact Hmain |]. split; [exact Hin |].
  split; [vm_compute; reflexivity |].
  intros p sz n fp r Hw. unfold readonly_trace in Hw. members Hw.
Defined.

(** X20.  When glGetError() reports an error after either glBufferData,
    [main] goes straight to the teardown: of the calls of the conversion it
    has made the uploads only, no program is used, nothing is dispatched,
    waited for, mapped or written, and it returns that error. *)
Theorem main_upload_error_skips_dispatch (w : world) (argv0 : string)
    (args : list string) (t : trace) (o : outcome) (tg us : glenum)
    (sz : Z) (d : var) :
  main w argv0 args = Some (t, o) ->
  In (E_glBufferData tg sz d us) t ->
  err_buffer_in (gl w) <> GL_NO_ERROR \/
  err_buffer_out (gl w) <> GL_NO_ERROR ->
  o = Returned (to_int (if err_buffer_in (gl w) =? GL_NO_ERROR
                        then err_buffer_out (gl w)
                        else err_buffer_in (gl w))) /\
  forall e, In e t -> conversion_event e = true -> is_buffer_data e = true.
Proof.
  intros Hmain Hin Herr.
  destruct (main_conversion _ _ _ _ _ _ Hmain Hin eq_refl)
    as (cvt & p & size & outfile & t1 & tc & rc & Hrun & -> & Hsetup & ->).
  destruct (convert_status _ _ _ _ _ _ _ _ Hrun) as [_ Hup].
  destruct (Hup Herr) as [-> Honly].
  split; [reflexivity |].
  intros e He Hconv.
  apply (setup_only_not_In _ _ _ Hsetup) in He; [| exact Hconv].
  exact (Honly _ He Hconv).
Qed.

Lemma main_upload_error_skips_dispatch_witness :
  main full_world "debayer" ["in.raw"; "out.rgba"]
  = Some (full_trace, Returned 1285) /\
  err_buffer_in (gl full_world) <> GL_NO_ERROR /\
  forall e, In e full_trace -> conversion_event e = true ->
            is_buffer_data e = true.
Proof.
  assert (Hmain : main full_world "debayer" ["in.raw"; "out.rgba"]
                  = Some (full_trace, Returned 1285))
    by (vm_compute; reflexivity).
  assert (Hin : In (E_glBufferData GL_SHADER_STORAGE_BUFFER 100 (Some 2001)
                      GL_STREAM_DRAW) full_trace)
    by (unfold full_trace; present).
  assert (Herr : err_buffer_in (gl full_world) <> GL_NO_ERROR)
    by (vm_compute; discriminate).
  split; [exact Hmain |]. split; [exact Herr |].
  exact (proj2 (main_upload_error_skips_dispatch _ _ _ _ _ _ _ _ _
                  Hmain Hin (or_introl Herr))).
Defined.

(** In [convert] a file is opened for writing, and written, only after the
    output buffer has been mapped; the buffer is unmapped only then, on
    the target GL_COPY_WRITE_BUFFER, while it is mapped on
    GL_SHADER_STORAGE_BUFFER; and the program used is the context's. *)
Lemma convert_mapping_discipline (w : world) (cvt : converter)
    (p_data_in : var) (data_in_size data_out_size : Z) (outfile : string)
    (t : trace) (r : Z) :
  convert w cvt p_data_in data_in_size data_out_size outfile = (t, r) ->
  (forall e, In e t -> writes_file e = true -> mapping_ok t) /\
  (forall tg, In (E_glUnmapBuffer tg) t ->
              tg = GL_COPY_WRITE_BUFFER /\ mapping_ok t) /\
  (forall tgt off len acc d, In (E_glMapBufferRange tgt off len acc d) t ->
                             tgt = GL_SHADER_STORAGE_BUFFER) /\
  (forall p, In (E_glUseProgram p) t -> p = shader_program cvt) /\
  (forall path fl res, ~ In (E_open path fl res) t).
Proof.
  convert_paths.
  all: unfold mapping_ok.
  all: split;
    [intros e Hin He; members Hin; try discriminate He; bools;
     exists data_out_size, (glMapBufferRange_res (gl w));
     (split; [assumption | present]) |].
  all: split;
    [intros tg Hin; members Hin; bools;
     (split; [reflexivity |]);
     exists data_out_size, (glMapBufferRange_res (gl w));
     (split; [assumption | present]) |].
  all: split; [intros tgt off len acc d Hin; members Hin; reflexivity |].
  all: split; [intros p Hin; members Hin; reflexivity |].
  all: intros path fl res Hin; members Hin.
Qed.

(** X21.  [main] opens a file for writing, and writes to one, only in a run
    in which glMapBufferRange has returned a mapping of the output
    buffer. *)
Theorem main_writes_only_after_mapping (w : world) (argv0 : string)
    (args : list string) (t : trace) (o : outcome) :
  main w argv0 args = Some (t, o) ->
  writes_output t = true ->
  mapping_ok t.
Proof.
  intros Hmain Hw. unfold writes_output in Hw.
  apply existsb_exists in Hw as (e & Hin & He).
  assert (Hconv : conversion_event e = true)
    by (destruct e; try discriminate He; [exact He | reflexivity]).
  destruct (main_conversion _ _ _ _ _ _ Hmain Hin Hconv)
    as (cvt & p & size & outfile & t1 & tc & rc & Hrun & -> & Hsetup & _).
  apply (setup_only_not_In _ _ _ Hsetup) in Hin; [| exact Hconv].
  destruct (convert_mapping_discipline _ _ _ _ _ _ _ _ Hrun) as (Hwr & _).
  destruct (Hwr _ Hin He) as (len & d & Hd & Hmap).
  exists len, d. split; [exact Hd |]. apply in_or_app. right. exact Hmap.
Qed.

Lemma main_writes_only_after_mapping_witness :
  main sample_world "debayer" ["in.raw"; "out.rgba"]
  = Some (sample_trace, Returned 0) /\
  writes_output sample_trace = true /\
  mapping_ok sample_trace.
Proof.
  assert (Hmain : main sample_world "debayer" ["in.raw"; "out.rgba"]
                  = Some (sample_trace, Returned 0))
    by (vm_compute; reflexivity).
  assert (Hw : writes_output sample_trace = true) by (vm_compute; reflexivity).
  split; [exact Hmain |]. split; [exact Hw |].
  exact (main_writes_only_after_mapping _ _ _ _ _ Hmain Hw).
Defined.

(** X22.  [main] unmaps the output buffer only in a run that mapped it, and
    always on the target GL_COPY_WRITE_BUFFER, although every mapping is
    made on GL_SHADER_STORAGE_BUFFER: the target that was mapped is never
    the one that is unmapped. *)
Theorem main_unmaps_another_target (w : world) (argv0 : string)
    (args : list string) (t : trace) (o : outcome) (tg : glenum) :
  main w argv0 args = Some (t, o) ->
  In (E_glUnmapBuffer tg) t ->
  tg = GL_COPY_WRITE_BUFFER /\
  mapping_ok t /\
  forall tgt off len acc d,
    In (E_glMapBufferRange tgt off len acc d) t ->
    tgt = GL_SHADER_STORAGE_BUFFER /\ tgt <> tg.
Proof.
  intros Hmain Hin. apply main_is_a_run in Hmain.
  destruct (run_event_in_convert _ _ _ _ _ Hmain Hin eq_refl)
    as (infile & outfile & t1 & _ & _ & _ & _ & Hsetup & -> & Hin' & _).
  destruct (phase_convert w infile outfile) as [tc rc] eqn:Hcv.
  unfold phase_convert in Hcv. cbn [events fst] in *.
  destruct (convert_mapping_discipline _ _ _ _ _ _ _ _ Hcv)
    as (_ & Hun & Hmaps & _).
  destruct (Hun _ Hin') as [-> (len & d & Hd & Hmap)].
  split; [reflexivity |].
  split; [exists len, d; split; [exact Hd |]; apply in_or_app; right;
          exact Hmap |].
  intros tgt off len' acc d' Hm.
  apply (setup_only_not_In _ _ _ Hsetup) in Hm; [| reflexivity].
  rewrite (Hmaps _ _ _ _ _ Hm). split; [reflexivity | discriminate].
Qed.

Lemma main_unmaps_another_target_witness :
  main sample_world "debayer" ["in.raw"; "out.rgba"]
  = Some (sample_trace, Returned 0) /\
  In (E_glUnmapBuffer GL_COPY_WRITE_BUFFER) sample_trace /\
  In (E_glMapBufferRange GL_SHADER_STORAGE_BUFFER 0 400 GL_MAP_READ_BIT 5001)
    sample_trace /\
  mapping_ok sample_trace.
Proof.
  assert (Hmain : main sample_world "debayer" ["in.raw"; "out.rgba"]
                  = Some (sample_trace, Returned 0))
    by (vm_compute; reflexivity).
  assert (Hin : In (E_glUnmapBuffer GL_COPY_WRITE_BUFFER) sample_trace)
    by (unfold sample_trace; present).
  destruct (main_unmaps_another_target _ _ _ _ _ _ Hmain Hin)
    as (_ & Hmap & _).
  split; [exact Hmain |]. split; [exact Hin |].
  split; [unfold sample_trace; present | exact Hmap].
Defined.

Lemma init_egl_opens_the_render_node (w : egl_world) (conv : converter)
    (render_node path : string) (fl : open_flags) (res : Z) :
  In (E_open path fl res) (events (init_egl w conv render_node)) ->
  path = render_node.
Proof.
  unfold init_egl, unwind, err_egl_make_current, err_egl_ctx, err_egl_dpy,
    err_gbm, events.
  paths. all: intros Hin; members Hin; reflexivity.
Qed.

Lemma init_shader_opens_no_device (fs : file_system) (w : shader_world)
    (conv : converter) (path : string) (fl : open_flags) (res : Z) :
  ~ In (E_open path fl res) (events (init_shader fs w conv)).
Proof.
  unfold init_shader, read_input_text_file, read_input_file, err_del_program,
    err_del_shader, events.
  paths. all: intros Hin; members Hin.
Qed.

(** X23.  The only device [main] opens is the render node
    /dev/dri/renderD128, and it opens it only after the input file has been
    read in full. *)
Theorem main_reads_input_before_gpu (w : world) (argv0 : string)
    (args : list string) (t : trace) (o : outcome) (path : string)
    (fl : open_flags) (res : Z) :
  main w argv0 args = Some (t, o) ->
  In (E_open path fl res) t ->
  path = RENDER_NODE_FNAME /\
  exists size, 0 < size /\ input_read t size.
Proof.
  intros Hmain Hin. apply main_is_a_run in Hmain.
  assert (Hread : forall infile t',
             0 < fst (result (phase_read w infile)) ->
             exists size, 0 < size /\
                          input_read (events (phase_read w infile) ++ t') size).
  { intros infile t' Hpos. unfold phase_read, read_input_bin_file in *.
    destruct (result (read_input_file (files w) infile "rb"))
      as [size data] eqn:Hres.
    cbn [fst] in Hpos.
    destruct (read_input_file_success _ _ _ _ _ Hres Hpos) as (_ & _ & Hev).
    exists size. split; [exact Hpos |].
    rewrite Hev. eexists _, _, _, _, _. reflexivity. }
  assert (Hrd_no : forall infile,
             ~ In (E_open path fl res) (events (phase_read w infile))).
  { intros infile Hin0. unfold phase_read, read_input_bin_file in Hin0.
    apply (forallb_In _ _ _ (read_input_file_stdio_only _ _ _)) in Hin0.
    discriminate Hin0. }
  destruct Hmain as [| | | infile Hrd | infile Hrd Hegl
                     | infile Hrd Hegl Hsh | infile outfile Hrd Hegl Hsh].
  1-3: members Hin.
  - apply in_app_or in Hin as [Hin | Hin];
      [exfalso; exact (Hrd_no _ Hin) | members Hin].
  - split; [| apply Hread; exact Hrd].
    apply in_app_or in Hin as [Hin | Hin]; [exfalso; exact (Hrd_no _ Hin) |].
    apply in_app_or in Hin as [Hin | Hin]; [| members Hin].
    exact (init_egl_opens_the_render_node _ _ _ _ _ _ Hin).
  - split; [| apply Hread; exact Hrd].
    apply in_app_or in Hin as [Hin | Hin]; [exfalso; exact (Hrd_no _ Hin) |].
    apply in_app_or in Hin as [Hin | Hin];
      [exact (init_egl_opens_the_render_node _ _ _ _ _ _ Hin) |].
    apply in_app_or in Hin as [Hin | Hin]; [| members Hin].
    exfalso. exact (init_shader_opens_no_device _ _ _ _ _ _ Hin).
  - split; [| apply Hread; exact Hrd].
    apply in_app_or in Hin as [Hin | Hin]; [exfalso; exact (Hrd_no _ Hin) |].
    apply in_app_or in Hin as [Hin | Hin];
      [exact (init_egl_opens_the_render_node _ _ _ _ _ _ Hin) |].
    apply in_app_or in Hin as [Hin | Hin];
      [exfalso; exact (init_shader_opens_no_device _ _ _ _ _ _ Hin) |].
    exfalso.
    destruct (phase_convert w infile outfile) as [tc rc] eqn:Hcv.
    unfold phase_convert in Hcv.
    destruct (convert_mapping_discipline _ _ _ _ _ _ _ _ Hcv)
      as (_ & _ & _ & _ & Hno).
    exact (Hno _ _ _ Hin).
Qed.

Lemma main_reads_input_before_gpu_witness :
  main sample_world "debayer" ["in.raw"; "out.rgba"]
  = Some (sample_trace, Returned 0) /\
  In (E_open "/dev/dri/renderD128" O_RDWR 3) sample_trace /\
  exists size, 0 < size /\ input_read sample_trace size.
Proof.
  assert (Hmain : main sample_world "debayer" ["in.raw"; "out.rgba"]
                  = Some (sample_trace, Returned 0))
    by (vm_compute; reflexivity).
  assert (Hin : In (E_open "/dev/dri/renderD128" O_RDWR 3) sample_trace)
    by (unfold sample_trace; present).
  split; [exact Hmain |]. split; [exact Hin |].
  exact (proj2 (main_reads_input_before_gpu _ _ _ _ _ _ _ _ Hmain Hin)).
Defined.

Lemma init_egl_keeps_shader_program (w : egl_world) (conv : converter)
    (render_node : string) :
  shader_program (snd (result (init_egl w conv render_node)))
  = shader_program conv.
Proof.
  unfold init_egl, unwind, err_egl_make_current, err_egl_ctx, err_egl_dpy,
    err_gbm, result.
  paths. all: reflexivity.
Qed.

Lemma init_shader_without_shader_object (fs : file_system)
    (w : shader_world) (conv : converter) :
  glCreateShader_res w = 0 ->
  shader_program (snd (result (init_shader fs w conv)))
  = shader_program conv.
Proof.
  unfold init_shader, read_input_text_file, read_input_file, err_del_program,
    err_del_shader, result.
  paths. all: intros H; bools; try contradiction; reflexivity.
Qed.

(** X24.  When glCreateShader refuses the shader object, a run of [main]
    that still reaches the dispatch, as it does if glGetError() reports no
    error then, calls glUseProgram with the program field of the context
    never assigned. *)
Theorem main_uses_unset_program (w : world) (argv0 : string)
    (args : list string) (t : trace) (o : outcome) (p : var) :
  main w argv0 args = Some (t, o) ->
  glCreateShader_res (shader w) = 0 ->
  In (E_glUseProgram p) t ->
  p = None /\ fst (result (phase_shader w)) = 0.
Proof.
  intros Hmain Hnone Hin. apply main_is_a_run in Hmain.
  destruct (run_event_in_convert _ _ _ _ _ Hmain Hin eq_refl)
    as (infile & outfile & t1 & _ & _ & Hsh & _ & _ & _ & Hin' & _).
  split; [| exact Hsh].
  destruct (phase_convert w infile outfile) as [tc rc] eqn:Hcv.
  unfold phase_convert in Hcv. cbn [events fst] in Hin'.
  destruct (convert_mapping_discipline _ _ _ _ _ _ _ _ Hcv)
    as (_ & _ & _ & Huse & _).
  rewrite (Huse _ Hin'). unfold phase_shader, phase_egl.
  rewrite (init_shader_without_shader_object _ _ _ Hnone).
  rewrite init_egl_keeps_shader_program. reflexivity.
Qed.

Lemma main_uses_unset_program_witness :
  main silent_world "debayer" ["in.raw"; "out.rgba"]
  = Some (silent_trace, Returned 0) /\
  glCreateShader_res (shader silent_world) = 0 /\
  In (E_glUseProgram None) silent_trace /\
  fst (result (phase_shader silent_world)) = 0.
Proof.
  assert (Hmain : main silent_world "debayer" ["in.raw"; "out.rgba"]
                  = Some (silent_trace, Returned 0))
    by (vm_compute; reflexivity).
  assert (Hnone : glCreateShader_res (shader silent_world) = 0)
    by reflexivity.
  assert (Hin : In (E_glUseProgram None) silent_trace)
    by (unfold silent_trace; present).
  split; [exact Hmain |]. split; [exact Hnone |]. split; [exact Hin |].
  exact (proj2 (main_uses_unset_program _ _ _ _ _ _ Hmain Hnone Hin)).
Defined.

(** * The output file, the teardown and the size option *)

(** ** The two files of a run *)

(** When the option loop ends with [break], what it leaves to [main] are
    the operands. *)
Lemma process_options_operands (fuel : nat) (posix : bool) (argv0 : string)
    (st : getopt_state) (b_ord : Z) (st' : getopt_state) (b' : Z) :
  process_options fuel posix argv0 st b_ord = Some ([], Break st' b') ->
  operands_from fuel posix st = positional st'.
Proof.
  revert st b_ord.
  induction fuel as [| fuel IH]; intros st b_ord H; [discriminate H |].
  cbn [process_options operands_from] in *.
  destruct (getopt posix "f:h" st) as [[c optarg] st1].
  destruct (c =? -1).
  - injection H as <- _. reflexivity.
  - destruct (c =? char_code "f"); [cbn in H; discriminate H |].
    destruct (c =? char_code "h"); [discriminate H |].
    apply (IH _ _ H).
Qed.

(** A run of [main_after_options] that makes a call other than those of
    the set-up was given two operands, has read the first in full, has set
    EGL and the shader up, and is then the run of [convert] on the second. *)
Lemma main_after_options_files (w : world) (st : getopt_state) (t : trace)
    (o : outcome) (e : event) :
  main_after_options w st = (t, o) ->
  In e t ->
  is_setup_call e = false ->
  exists infile outfile,
    positional st = [infile; outfile] /\
    0 < fst (result (phase_read w infile)) /\
    fst (result (phase_egl w)) = 0 /\
    fst (result (phase_shader w)) = 0 /\
    t = events (phase_read w infile) ++ events (phase_egl w)
        ++ events (phase_shader w)
        ++ events (phase_convert w infile outfile) /\
    o = Returned (result (phase_convert w infile outfile)).
Proof.
  intros Hrun Hin He.
  assert (Hno : forall t0, forallb is_setup_call t0 = true -> ~ In e t0).
  { intros t0 Ht0 Hin0. apply (forallb_In _ _ _ Ht0) in Hin0. congruence. }
  revert Hrun. unfold main_after_options.
  destruct (positional st) as [| infile [| outfile [| extra more]]].
  1, 2, 4: intros H; injection H as <- <-; exfalso; revert Hin; apply Hno;
    reflexivity.
  exists infile, outfile. split; [reflexivity |].
  pose proof (read_input_file_setup_calls (files w) infile "rb") as Hs_rd.
  pose proof (init_egl_setup_calls (egl w) (cvt_declared SHADER_FNAME)
                RENDER_NODE_FNAME) as Hs_egl.
  pose proof (init_shader_setup_calls (files w) (shader w)
                (snd (result (phase_egl w)))) as Hs_sh.
  revert Hrun Hs_rd Hs_egl Hs_sh.
  unfold phase_convert, phase_shader, phase_egl, phase_read,
    read_input_bin_file.
  unfold bind, events, result.
  destruct (read_input_file (files w) infile "rb") as [t_rd [size data]].
  cbn [fst snd].
  destruct (size <=? 0) eqn:Hsize; bools.
  { cbn [fst snd app call ret]. intros H Hs_rd _ _.
    injection H as <- <-. exfalso. revert Hin. apply Hno.
    rewrite forallb_app, Hs_rd. reflexivity. }
  destruct (init_egl (egl w) (cvt_declared SHADER_FNAME) RENDER_NODE_FNAME)
    as [t_egl [r_egl cvt1]].
  cbn [fst snd].
  destruct (negb (r_egl =? 0)) eqn:Hr_egl; bools.
  { cbn [fst snd app call ret]. intros H Hs_rd Hs_egl _.
    injection H as <- <-. exfalso. revert Hin. apply Hno.
    rewrite !forallb_app, Hs_rd, Hs_egl. reflexivity. }
  destruct (init_shader (files w) (shader w) cvt1) as [t_sh [r_sh cvt2]].
  cbn [fst snd].
  destruct (negb (r_sh =? 0)) eqn:Hr_sh; bools.
  { cbn [fst snd app call ret]. intros H Hs_rd Hs_egl Hs_sh.
    injection H as <- <-. exfalso. revert Hin. apply Hno.
    rewrite !forallb_app, Hs_rd, Hs_egl, Hs_sh. reflexivity. }
  destruct (convert w cvt2 data size (to_long (4 * size)) outfile)
    as [t_cv r_cv].
  cbn [fst snd app call ret]. intros H _ _ _.
  injection H as <- <-. rewrite app_nil_r.
  repeat split; assumption.
Qed.

(** The same of a run of [main], the two operands being those the option
    loop leaves. *)
Lemma main_files (w : world) (argv0 : string) (args : list string)
    (t : trace) (o : outcome) (e : event) :
  main w argv0 args = Some (t, o) ->
  In e t ->
  is_setup_call e = false ->
  exists infile outfile,
    operands (posixly_correct w) args = [infile; outfile] /\
    0 < fst (result (phase_read w infile)) /\
    fst (result (phase_egl w)) = 0 /\
    fst (result (phase_shader w)) = 0 /\
    t = events (phase_read w infile) ++ events (phase_egl w)
        ++ events (phase_shader w)
        ++ events (phase_convert w infile outfile) /\
    o = Returned (result (phase_convert w infile outfile)).
Proof.
  unfold main, operands.
  destruct (process_options _ _ _ _ _) as [opts |] eqn:Hopts;
    [| discriminate].
  pose proof (process_options_shape _ _ _ _ _ _ Hopts)
    as [(st' & b & ->) | [-> | ->]].
  - rewrite (process_options_operands _ _ _ _ _ _ _ Hopts).
    cbn [bind app]. destruct (main_after_options w st') as [t' o'] eqn:Hrun.
    intros H; injection H as <- <-.
    apply (main_after_options_files w st'). exact Hrun.
  - intros H Hin He; injection H as <- <-. members Hin. discriminate He.
  - intros H Hin He; injection H as <- <-. members Hin. discriminate He.
Qed.

Lemma init_egl_creates_no_program (w : egl_world) (conv : converter)
    (render_node : string) (r : Z) :
  ~ In (E_glCreateProgram r) (events (init_egl w conv render_node)).
Proof.
  unfold init_egl, unwind, err_egl_make_current, err_egl_ctx, err_egl_dpy,
    err_gbm, events.
  paths. all: intros Hin; members Hin.
Qed.

(** The program [init_shader] leaves in the context is the one
    glCreateProgram returned, when it was called. *)
Lemma init_shader_program (fs : file_system) (w : shader_world)
    (conv : converter) (r : Z) :
  In (E_glCreateProgram r) (events (init_shader fs w conv)) ->
  shader_program (snd (result (init_shader fs w conv))) = Some r.
Proof.
  unfold init_shader, read_input_text_file, read_input_file, err_del_program,
    err_del_shader, events, result.
  paths. all: intros Hin; members Hin; reflexivity.
Qed.

(** On every path [convert] ends with the teardown of the context it was
    given and of the buffers it generated; until then it acquires and
    gives back nothing and creates no program. *)
Lemma convert_teardown (w : world) (cvt : converter) (p_data_in : var)
    (data_in_size data_out_size : Z) (outfile : string) (t : trace) (r : Z) :
  convert w cvt p_data_in data_in_size data_out_size outfile = (t, r) ->
  exists t1,
    t = t1 ++ teardown (set_bos cvt (glGenBuffers_res (gl w))) p_data_in /\
    In (E_glGenBuffers bo_num (glGenBuffers_res (gl w))) t1 /\
    acquired t1 = [] /\
    released t1 = [] /\
    (forall q, ~ In (E_glCreateProgram q) t1) /\
    (forall q, ~ In (E_free q) t1).
Proof.
  convert_paths.
  all: unfold teardown;
    lazymatch goal with
    | |- exists t1, ?l = _ /\ _ =>
        let n := eval cbv in (List.length l - 7)%nat in
        let t := eval cbn in (firstn n l) in
        exists t
    end.
  all: split; [reflexivity |].
  all: split; [present |].
  all: split; [reflexivity |].
  all: split; [reflexivity |].
  all: split; intros q Hin; members Hin.
Qed.



(** ** The output file *)





(** The allocation is narrowed: for an input of 2^30 bytes the output
    buffer is allocated with size 0, the low 32 bits of 2^32, and mapped
    with the length 2^32. *)
Lemma output_allocation_wraps :
  exists t o,
    main huge_world "debayer" ["in.raw"; "out.rgba"] = Some (t, o) /\
    input_read t (2 ^ 30) /\
    4 * 2 ^ 30 <= LONG_MAX /\
    In (E_glBufferData GL_SHADER_STORAGE_BUFFER 0 (Some NULL) GL_STREAM_READ)
      t /\
    In (E_glMapBufferRange GL_SHADER_STORAGE_BUFFER 0 (4 * 2 ^ 30)
          GL_MAP_READ_BIT 5001) t.
Proof.
  eexists _, _. split; [vm_compute; reflexivity |].
  split; [eexists _, _, _, _, _; reflexivity |].
  split; [vm_compute; discriminate |].
  split; present.
Qed.

(** ** The teardown of a run that maps nothing *)

(** C9.  When glMapBufferRange returns NULL, [main] neither opens nor writes
    an output file and runs the teardown on what the run holds: it deletes
    the two buffers glGenBuffers returned and the program of the context,
    destroys the context on its display, terminates the display, destroys
    the GBM device, closes the descriptor and frees the buffer the input was
    read into, these being the four resources acquired, none of which was
    given back before.  It returns the error variable as it was left: the
    answer of the glGetError() that followed the dispatch when the program
    object could be used, hence 0 when the dispatch raised no error, and 0
    as well when the loop was left before the dispatch. *)
Theorem unmapped_output_returns_dispatch_status (w : world) (argv0 : string)
    (args : list string) (t : trace) (o : outcome) (tgt acc : glenum)
    (off len : Z) :
  main w argv0 args = Some (t, o) ->
  In (E_glMapBufferRange tgt off len acc NULL) t ->
  writes_output t = false /\
  (exists t1 b prog dpy ctx g f p size,
      t = t1 ++ teardown_of b prog dpy ctx g f p /\
      In (E_glGenBuffers bo_num b) t1 /\
      prog = shader_program (snd (result (phase_shader w))) /\
      (forall q, In (E_glCreateProgram q) t1 -> prog = Some q) /\
      acquired t1
      = [R_fd (Some f); R_gbm (Some g); R_dpy (Some dpy);
         R_ctx (Some dpy) (Some ctx)] /\
      released t1 = [] /\
      input_read_into t1 size p) /\
  (err_use_program (gl w) = GL_NO_ERROR ->
   o = Returned (to_int (err_dispatch (gl w)))) /\
  (err_use_program (gl w) = GL_NO_ERROR ->
   err_dispatch (gl w) = GL_NO_ERROR ->
   o = Returned 0) /\
  (err_use_program (gl w) <> GL_NO_ERROR -> o = Returned 0).
Proof.
  intros Hmain Hin.
  destruct (main_files _ _ _ _ _ _ Hmain Hin eq_refl)
    as (infile & outfile & _ & Hpos & Hegl & _ & -> & ->).
  assert (Hpre : setup_only (events (phase_read w infile)
                             ++ events (phase_egl w)
                             ++ events (phase_shader w)) = true).
  { unfold phase_read, phase_shader, phase_egl, read_input_bin_file.
    rewrite !setup_only_app, read_input_file_setup_only,
      init_egl_setup_only, init_shader_setup_only; reflexivity. }
  rewrite !app_assoc in Hin |- *.
  rewrite <- (app_assoc (events (phase_read w infile))) in Hin |- *.
  apply (setup_only_not_In _ _ _ Hpre) in Hin; [| reflexivity].
  destruct (phase_convert w infile outfile) as [tc rc] eqn:Hcv.
  unfold phase_convert in Hcv. cbn [events result fst snd] in Hin |- *.
  destruct (convert_unmapped _ _ _ _ _ _ _ _ _ _ _ _ Hcv Hin)
    as (Hquiet & _ & Hret & Hskip).
  destruct (convert_teardown _ _ _ _ _ _ _ _ Hcv)
    as (t2 & -> & Hgen & Hacq2 & Hrel2 & Hprog2 & _).
  split.
  { unfold writes_output in *. rewrite existsb_app, Hquiet.
    apply setup_only_writes in Hpre. unfold writes_output in Hpre.
    rewrite Hpre. reflexivity. }
  split.
  2: { split; [| split].
       - intros Huse. rewrite (Hret Huse). reflexivity.
       - intros Huse Hdisp. rewrite (Hret Huse), Hdisp. reflexivity.
       - intros Huse. rewrite (Hskip Huse). reflexivity. }
  destruct (init_shader_keeps_egl_handles (files w) (shader w)
              (snd (result (phase_egl w)))) as (Hfd & Hgbm & Hdpy & Hctx).
  destruct (init_egl_handles _ _ _ Hegl) as (Hfd0 & Hgbm0 & Hdpy0 & Hctx0).
  fold (phase_egl w) in Hfd0, Hgbm0, Hdpy0, Hctx0.
  fold (phase_shader w) in Hfd, Hgbm, Hdpy, Hctx.
  rewrite Hfd0 in Hfd. rewrite Hgbm0 in Hgbm. rewrite Hdpy0 in Hdpy.
  rewrite Hctx0 in Hctx.
  destruct (init_egl_success _ _ _ _ (result_eta _ _ Hegl)) as [Ha0 Hr0].
  fold (phase_egl w) in Ha0, Hr0.
  rewrite Hfd0, Hgbm0, Hdpy0, Hctx0 in Ha0.
  destruct (read_input_file_holds_no_resource (files w) infile "rb")
    as [Ha Hr].
  destruct (init_shader_holds_no_resource (files w) (shader w)
              (snd (result (phase_egl w)))) as [Ha' Hr'].
  fold (phase_shader w) in Ha', Hr'.
  exists ((events (phase_read w infile) ++ events (phase_egl w)
           ++ events (phase_shader w)) ++ t2),
    (glGenBuffers_res (gl w)),
    (shader_program (snd (result (phase_shader w)))),
    (eglGetPlatformDisplay_res (egl w)), (eglCreateContext_res (egl w)),
    (gbm_create_device_res (egl w)), (open_res (egl w)),
    (malloc_res (files w infile "rb")),
    (fst (result (phase_read w infile))).
  split.
  { rewrite (phase_read_buffer _ _ Hpos).
    unfold teardown, teardown_of. cbn [set_bos bos shader_program egl_dpy
      core_ctx gbm fd]. rewrite Hfd, Hgbm, Hdpy, Hctx.
    rewrite <- !app_assoc. reflexivity. }
  split; [apply in_or_app; right; exact Hgen |].
  split; [reflexivity |].
  split.
  { intros q Hq.
    apply in_app_or in Hq as [Hq | Hq]; [| exfalso; exact (Hprog2 _ Hq)].
    apply in_app_or in Hq as [Hq | Hq].
    { exfalso. unfold phase_read, read_input_bin_file in Hq.
      apply (forallb_In _ _ _ (read_input_file_stdio_only _ _ _)) in Hq.
      discriminate Hq. }
    apply in_app_or in Hq as [Hq | Hq].
    { exfalso. exact (init_egl_creates_no_program _ _ _ _ Hq). }
    exact (init_shader_program _ _ _ _ Hq). }
  unfold phase_read, read_input_bin_file in *.
  rewrite !acquired_app, !released_app, Ha, Hr, Ha', Hr', Ha0, Hr0, Hacq2,
    Hrel2.
  split; [reflexivity |]. split; [reflexivity |].
  destruct (result (read_input_file (files w) infile "rb"))
    as [size data] eqn:Hres.
  cbn [fst] in *.
  destruct (read_input_file_success _ _ _ _ _ Hres Hpos) as (_ & _ & ->).
  eexists _, _, _, _. reflexivity.
Qed.

Lemma unmapped_output_returns_dispatch_status_witness :
  main unmappable_world "debayer" ["in.raw"; "out.rgba"]
  = Some (unmappable_trace, Returned 0) /\
  In (E_glMapBufferRange GL_SHADER_STORAGE_BUFFER 0 400 GL_MAP_READ_BIT NULL)
    unmappable_trace /\
  writes_output unmappable_trace = false /\
  exists t1,
    unmappable_trace
    = t1 ++ teardown_of (11, 12) (Some 2) 3002 3004 3001 3 2001.
Proof.
  assert (Hmain : main unmappable_world "debayer" ["in.raw"; "out.rgba"]
                  = Some (unmappable_trace, Returned 0))
    by (vm_compute; reflexivity).
  assert (Hin : In (E_glMapBufferRange GL_SHADER_STORAGE_BUFFER 0 400
                      GL_MAP_READ_BIT NULL) unmappable_trace)
    by (unfold unmappable_trace; present).
  destruct (unmapped_output_returns_dispatch_status _ _ _ _ _ _ _ _ _
              Hmain Hin) as (Hquiet & _).
  repeat (split; [assumption |]).
  unfold unmappable_trace, teardown_of.
  lazymatch goal with
  | |- exists t1, ?l = _ =>
      let n := eval cbv in (List.length l - 7)%nat in
      let t := eval cbn in (firstn n l) in
      exists t; reflexivity
  end.
Defined.

(** ** The size option *)

(** A letter that [main] does not handle makes [getopt] answer '?', take
    no argument and move on to the next character of its element. *)
Lemma take_unhandled_option (c : ascii) (cl : string)
    (elems passed : list string) :
  Ascii.eqb c "f" = false ->
  Ascii.eqb c "h" = false ->
  take_option "f:h" c cl elems passed
  = (char_code "?", None,
     {| cluster := cl; rest := elems; skipped := passed |}).
Proof.
  intros Hf Hh. unfold take_option.
  destruct (Ascii.eqb c ":") eqn:Hcolon; [reflexivity |].
  destruct (lookup_option "f:h" c) as [b |] eqn:Hlook; [| reflexivity].
  apply lookup_option_fh in Hlook as [-> | [-> | ->]]; discriminate.
Qed.

(** The option loop passes over the letters it does not handle: it goes
    through them one call of [getopt] each and does what it does without
    them. *)
Lemma process_options_skips_unhandled (cl : string) (fuel : nat)
    (posix : bool) (argv0 : string) (elems passed : list string) (b_ord : Z)
    (r : Run loop_exit) :
  unhandled_letters cl = true ->
  process_options fuel posix argv0
    {| cluster := EmptyString; rest := elems; skipped := passed |} b_ord
  = Some r ->
  process_options (String.length cl + fuel) posix argv0
    {| cluster := cl; rest := elems; skipped := passed |} b_ord
  = Some r.
Proof.
  induction cl as [| c cl IH]; intros Hcl Hr; [exact Hr |].
  cbn [unhandled_letters] in Hcl.
  apply andb_true_iff in Hcl as [Hc Hcl].
  apply andb_true_iff in Hc as [Hf Hh].
  apply negb_true_iff in Hf, Hh.
  cbn [String.length Nat.add process_options].
  unfold getopt. cbn [cluster rest skipped].
  rewrite (take_unhandled_option _ _ _ _ Hf Hh).
  change (char_code "?" =? -1) with false.
  change (char_code "?" =? char_code "f") with false.
  change (char_code "?" =? char_code "h") with false.
  cbv iota. apply IH; assumption.
Qed.

(** An option element that begins with -s changes nothing, whatever
    follows the letter that [main] does not handle either. *)
Lemma main_skips_size_option (w : world) (argv0 : string) (cl : string)
    (args : list string) :
  unhandled_letters cl = true ->
  main w argv0 (String "-" (String "s" cl) :: args) = main w argv0 args.
Proof.
  intros Hcl.
  assert (Hget : getopt (posixly_correct w) "f:h"
                   (getopt_start (String "-" (String "s" cl) :: args))
                 = (char_code "?", None,
                    {| cluster := cl; rest := args; skipped := [] |})).
  { unfold getopt, getopt_start. cbn [cluster rest skipped advance].
    rewrite Ascii.eqb_refl.
    change (Ascii.eqb "s" "-") with false. cbn [andb].
    apply take_unhandled_option; reflexivity. }
  destruct (process_options_terminates
              (S (getopt_budget (getopt_start args))) (posixly_correct w)
              argv0 (getopt_start args) (-1)) as [r Hr]; [lia |].
  unfold main at 2. rewrite Hr.
  unfold main.
  replace (S (getopt_budget
                (getopt_start (String "-" (String "s" cl) :: args))))
    with (S (String.length cl
             + (S (getopt_budget (getopt_start args)) + 2)))%nat
    by (unfold getopt_budget, getopt_start; cbn; lia).
  cbn [process_options]. rewrite Hget.
  change (char_code "?" =? -1) with false.
  change (char_code "?" =? char_code "f") with false.
  change (char_code "?" =? char_code "h") with false.
  cbv iota.
  rewrite (process_options_skips_unhandled cl _ _ _ _ _ _ r Hcl);
    [reflexivity |].
  apply process_options_fuel. exact Hr.
Qed.

(** C10.  The usage text [main] prints for -h advertises "-s XxY", yet the
    option loop never handles -s.  Wherever the scanner meets the letter,
    the loop passes over it and over what is attached to it, one call of
    [getopt] each, without taking the next argument, and goes on as it does
    from the end of that element; so with an argument that begins with -s
    ahead of the others the program does what it does without it, and a
    size given as the next argument is taken for a file name.  And in every
    run the dispatch covers 1920 by 1080 pixels, whatever the arguments. *)
Theorem size_option_is_never_handled (w : world) (argv0 : string)
    (cl : string) (args : list string) :
  unhandled_letters cl = true ->
  (exists text,
      main w argv0 ["-h"] = Some ([E_printf text [PStr argv0]], Returned 0) /\
      strstr text "-s XxY" = true) /\
  (forall fuel posix elems passed b_ord r,
      process_options fuel posix argv0
        {| cluster := EmptyString; rest := elems; skipped := passed |} b_ord
      = Some r ->
      process_options (String.length (String "s" cl) + fuel) posix argv0
        {| cluster := String "s" cl; rest := elems; skipped := passed |} b_ord
      = Some r) /\
  main w argv0 (String "-" (String "s" cl) :: args) = main w argv0 args /\
  (forall v infile outfile,
      nonoption v = true -> nonoption infile = true ->
      nonoption outfile = true ->
      main w argv0 ["-s"; v; infile; outfile]
      = Some ([E_printf "Give input and output files\n" []], Returned (-1))) /\
  (forall t o x y z,
      main w argv0 args = Some (t, o) ->
      In (E_glDispatchCompute x y z) t ->
      x * LSIZE_X = 1920 /\ y * LSIZE_Y = 1080 /\ z = 1).
Proof.
  intros Hcl.
  split; [exists USAGE; split; vm_compute; reflexivity |].
  split.
  { intros fuel posix elems passed b_ord r Hr.
    apply process_options_skips_unhandled; [exact Hcl | exact Hr]. }
  split; [apply main_skips_size_option; exact Hcl |].
  split.
  - intros v infile outfile Hv Hin Hout.
    change "-s" with (String "-" (String "s" EmptyString)).
    rewrite (main_skips_size_option w argv0 EmptyString _ eq_refl).
    rewrite main_without_options
      by (cbn [forallb]; rewrite Hv, Hin, Hout; reflexivity).
    reflexivity.
  - intros t o x y z Hmain Hin.
    destruct (main_conversion _ _ _ _ _ _ Hmain Hin eq_refl)
      as (cvt & p & size & outfile & t1 & tc & rc & Hrun & -> & Hsetup & _).
    apply (setup_only_not_In _ _ _ Hsetup) in Hin; [| reflexivity].
    destruct (convert_dispatch _ _ _ _ _ _ _ _ Hrun) as (Hgrid & _).
    destruct (Hgrid _ _ _ Hin) as (-> & -> & ->).
    repeat split.
Qed.

Lemma size_option_is_never_handled_witness :
  unhandled_letters "640x480" = true /\
  main sample_world "debayer" ["-s640x480"; "in.raw"; "out.rgba"]
  = Some (sample_trace, Returned 0) /\
  main sample_world "debayer" ["-s"; "640x480"; "in.raw"; "out.rgba"]
  = Some ([E_printf "Give input and output files\n" []], Returned (-1)) /\
  In (E_glDispatchCompute 60 135 1) sample_trace /\
  60 * LSIZE_X = 1920 /\ 135 * LSIZE_Y = 1080.
Proof.
  assert (Hcl : unhandled_letters "640x480" = true) by reflexivity.
  assert (Hmain : main sample_world "debayer" ["in.raw"; "out.rgba"]
                  = Some (sample_trace, Returned 0))
    by (vm_compute; reflexivity).
  assert (Hin : In (E_glDispatchCompute 60 135 1) sample_trace)
    by (unfold sample_trace; present).
  destruct (size_option_is_never_handled sample_world "debayer" "640x480"
              ["in.raw"; "out.rgba"] Hcl) as (_ & _ & Hskip & Hfile & Hgrid).
  destruct (Hgrid _ _ _ _ _ Hmain Hin) as (Hx & Hy & _).
  split; [exact Hcl |].
  split; [change "-s640x480" with (String "-" (String "s" "640x480"));
          rewrite Hskip; exact Hmain |].
  split; [apply Hfile; reflexivity |].
  split; [exact Hin |]. split; [exact Hx | exact Hy].
Defined.
